(** * zerox: the OpenAI completion client (py_zerox/zerox/models/openai.py)

    A shallow embedding of the [OpenAI] model class: credential lookup,
    validation of the LLM parameters, construction of the chat messages,
    the chat-completions request and the [completion] entry point.

    Python objects that are only built and read are immutable Rocq values;
    the dictionaries that callers share with the class (the parameter
    mapping and the class attribute [DEFAULT_LLM_PARAMS]) live in a store
    of dict objects addressed by reference.  Exceptions are the left
    summand of a sum, and the calls to the collaborators (the image
    encoder and the HTTP transport) are recorded in a trace. *)

From Stdlib Require Import ZArith Ascii String.
From stdpp Require Import base gmap strings list fin_maps pretty.

#[local] Set Warnings "-register-all".

(** ** Python values, exceptions and the built-ins the module uses *)
Module Py.

(** Objects exchanged as JSON.  A float is kept as its literal: the
    client never computes with one. *)
Inductive value : Type :=
| VNone
| VBool (b : bool)
| VInt (z : Z)
| VFloat (lit : string)
| VStr (s : string)
| VList (l : list value)
| VDict (d : list (string * value)).

(** A subscript: [x["name"]] or [x[0]]. *)
Inductive key : Type :=
| KStr (s : string)
| KInt (i : Z).

(** The exceptions that can cross the module.  [Foreign] stands for the
    errors of the collaborators (a missing file in the encoder, a
    transport or JSON-decoding error of the HTTP library): the name of
    the class and the text [str] gives for it.  Every class here derives
    from [Exception]. *)
Inductive exn : Type :=
| MissingOpenAIAPIKeyException
| InvalidLLMParamsException (msg : string)
| Exception (msg : string)
| KeyError (k : key)
| IndexError (msg : string)
| TypeError (msg : string)
| Foreign (cls msg : string).

Definition squote : string := String "039"%char EmptyString.
Definition dquote : string := String "034"%char EmptyString.
Definition newline : string := String "010"%char EmptyString.

(** [str(err)].  A [KeyError] prints the [repr] of its key; the keys the
    module subscripts with are plain identifiers, whose [repr] is the
    identifier between single quotes. *)
Definition str_exn (e : exn) : string :=
  match e with
  | MissingOpenAIAPIKeyException => ""
  | InvalidLLMParamsException msg => msg
  | Exception msg => msg
  | KeyError (KStr s) => squote +:+ s +:+ squote
  | KeyError (KInt i) => pretty i
  | IndexError msg => msg
  | TypeError msg => msg
  | Foreign _ msg => msg
  end.

(** [sep.join(l)] *)
Fixpoint join (sep : string) (l : list string) : string :=
  match l with
  | [] => ""
  | [x] => x
  | x :: xs => x +:+ sep +:+ join sep xs
  end.

(** [bool(s)] for a string: true exactly when it is not empty. *)
Definition truthy_str (s : string) : bool :=
  match s with
  | EmptyString => false
  | String _ _ => true
  end.

(** [a in b] for strings. *)
Definition substring_of (a b : string) : Prop :=
  ∃ pre post, b = pre +:+ a +:+ post.

(** Lookup in a dict literal (keys are distinct in every dict the module
    builds; a decoded JSON object keeps one entry per key). *)
Fixpoint dict_get (k : string) (d : list (string * value)) : option value :=
  match d with
  | [] => None
  | (k', v) :: d' => if String.eqb k k' then Some v else dict_get k d'
  end.

(** Sequence index, negative indices counting from the end. *)
Definition seq_index {A} (i : Z) (l : list A) : option A :=
  if (0 <=? i)%Z then l !! Z.to_nat i
  else if (0 <=? Z.of_nat (length l) + i)%Z
       then l !! Z.to_nat (Z.of_nat (length l) + i)
       else None.

Definition str_index (i : Z) (s : string) : option ascii :=
  if (0 <=? i)%Z then String.get (Z.to_nat i) s
  else if (0 <=? Z.of_nat (String.length s) + i)%Z
       then String.get (Z.to_nat (Z.of_nat (String.length s) + i)) s
       else None.

Definition not_subscriptable (ty : string) : exn :=
  TypeError (squote +:+ ty +:+ squote +:+ " object is not subscriptable").

(** [v[k]] *)
Definition getitem (v : value) (k : key) : exn + value :=
  match v, k with
  | VDict d, KStr s =>
      match dict_get s d with
      | Some x => inr x
      | None => inl (KeyError k)
      end
  | VDict _, KInt _ => inl (KeyError k)
  | VList l, KInt i =>
      match seq_index i l with
      | Some x => inr x
      | None => inl (IndexError "list index out of range")
      end
  | VList _, KStr _ =>
      inl (TypeError "list indices must be integers or slices, not str")
  | VStr s, KInt i =>
      match str_index i s with
      | Some c => inr (VStr (String c EmptyString))
      | None => inl (IndexError "string index out of range")
      end
  | VStr _, KStr _ =>
      inl (TypeError "string indices must be integers, not 'str'")
  | VNone, _ => inl (not_subscriptable "NoneType")
  | VBool _, _ => inl (not_subscriptable "bool")
  | VInt _, _ => inl (not_subscriptable "int")
  | VFloat _, _ => inl (not_subscriptable "float")
  end.

(** A format string after parsing: literal text and replacement fields,
    by position ([{0}]) or by name ([{status_code}]). *)
Inductive piece : Type :=
| Lit (s : string)
| PosField (n : nat)
| NamedField (name : string).

Definition template : Type := list piece.

Fixpoint kw_get (k : string) (kw : list (string * string)) : option string :=
  match kw with
  | [] => None
  | (k', v) :: kw' => if String.eqb k k' then Some v else kw_get k kw'
  end.

(** [t.format] on positional and keyword arguments already converted by
    [str].  Fields are filled from left to right; the first field that
    has no argument raises. *)
Fixpoint format (t : template) (args : list string)
    (kwargs : list (string * string)) : exn + string :=
  match t with
  | [] => inr ""
  | Lit s :: t' =>
      match format t' args kwargs with
      | inr r => inr (s +:+ r)
      | inl e => inl e
      end
  | PosField n :: t' =>
      match args !! n with
      | None =>
          inl (IndexError ("Replacement index " +:+ pretty n +:+
                           " out of range for positional args tuple"))
      | Some a =>
          match format t' args kwargs with
          | inr r => inr (a +:+ r)
          | inl e => inl e
          end
      end
  | NamedField k :: t' =>
      match kw_get k kwargs with
      | None => inl (KeyError (KStr k))
      | Some a =>
          match format t' args kwargs with
          | inr r => inr (a +:+ r)
          | inl e => inl e
          end
      end
  end.

(** Every field of [t] has an argument among [n] positional ones and the
    keyword names [names]. *)
Definition field_ok (n : nat) (names : list string) (p : piece) : bool :=
  match p with
  | Lit _ => true
  | PosField i => bool_decide (i < n)
  | NamedField k => bool_decide (k ∈ names)
  end.

Definition fields_ok (n : nat) (names : list string) (t : template) : bool :=
  forallb (field_ok n names) t.

End Py.

(** ** The store, the trace and the monad of the client *)
Module Rt.
Import Py.

(** References to dict objects. *)
Definition loc : Type := positive.

(** What goes out on [session.post]. *)
Record request : Type := Request {
  url : string;
  json : value;
  headers : list (string * string)
}.

(** What the transport hands back: the status line and the outcome of
    [response.json()], which raises when the body does not decode. *)
Record response : Type := Response {
  status : Z;
  json_body : exn + value
}.

(** Calls to the collaborators, in the order they are made. *)
Inductive event : Type :=
| EncodeImage (path : string)
| HttpPost (req : request).

Record state : Type := State {
  heap : gmap loc (gmap string value);
  trace : list event
}.

(** A computation either raises or returns, and leaves a state. *)
Definition M (A : Type) : Type := state → (exn + A) * state.

Definition ret {A} (a : A) : M A := λ s, (inr a, s).

Definition raise {A} (e : exn) : M A := λ s, (inl e, s).

Definition bind {A B} (m : M A) (k : A → M B) : M B :=
  λ s, match m s with
       | (inr a, s') => k a s'
       | (inl e, s') => (inl e, s')
       end.

(** [try: m  except Exception as err: h err] *)
Definition try_except {A} (m : M A) (h : exn → M A) : M A :=
  λ s, match m s with
       | (inr a, s') => (inr a, s')
       | (inl e, s') => h e s'
       end.

(** A pure, fallible step. *)
Definition lift {A} (r : exn + A) : M A := λ s, (r, s).

(** Reading a dict object.  Python has no dangling reference; a
    reference outside the store reads as the empty dict. *)
Definition load (l : loc) : M (gmap string value) :=
  λ s, (inr (default ∅ (heap s !! l)), s).

(** A dict display [{...}] builds a new object. *)
Definition alloc (d : gmap string value) : M loc :=
  λ s, let l := fresh (dom (heap s)) in
       (inr l, State (<[l := d]> (heap s)) (trace s)).

(** A call to a collaborator [f] is logged, then answered by [f]. *)
Definition call {A B} (ev : A → event) (f : A → exn + B) (a : A) : M B :=
  λ s, (f a, State (heap s) (trace s ++ [ev a])).

(** A computation that leaves the state as it found it. *)
Definition silent {A} (m : M A) : Prop := ∀ s, (m s).2 = s.

End Rt.

Declare Scope py_scope.
Delimit Scope py_scope with py.
Notation "'let*' x ':=' m 'in' k" := (Rt.bind m (λ x, k))
  (at level 10, x name, m at level 100, k at level 200) : py_scope.

(** ** The module: class [OpenAI] *)
Module Openai.
Import Py Rt.
#[local] Open Scope py_scope.

(** An instance holds the credential [BaseModel.__init__] stores. *)
Record OpenAI : Type := { api_key : string }.

(** Modelled from the spec: [CompletionResponse] is declared in
    [.types], outside this module; it is taken as the record of the three
    keyword arguments its constructor receives. *)
Record CompletionResponse : Type := {
  content : value;
  input_tokens : value;
  output_tokens : value
}.

Definition _system_prompt : string :=
  newline +:+
  "    Convert the following PDF page to markdown." +:+ newline +:+
  "    Return only the markdown with no explanation text." +:+ newline +:+
  "    Do not exclude any content from the page." +:+ newline +:+
  "    ".

(** The class attribute, as the class body creates it. *)
Definition DEFAULT_LLM_PARAMS : gmap string value :=
  <["max_tokens" := VInt 1000]>
  (<["temperature" := VInt 0]>
  (<["top_p" := VInt 1]>
  (<["frequency_penalty" := VInt 0]>
  (<["presence_penalty" := VInt 0]> ∅)))).

(** The reference [OpenAI.DEFAULT_LLM_PARAMS] is bound to. *)
Definition DEFAULT_LLM_PARAMS_ref : loc := 1%positive.

(** The store once the class is defined. *)
Definition class_heap : gmap loc (gmap string value) :=
  {[ DEFAULT_LLM_PARAMS_ref := DEFAULT_LLM_PARAMS ]}.

(** [get_api_key]: the process environment is [environ]; [os.getenv]
    gives [None] for a variable that is not set. *)
Definition get_api_key (environ : gmap string string)
    (api_key : option string) : exn + string :=
  let api_key :=
    match api_key with
    | None => environ !! "OPENAI_API_KEY"
    | Some k => Some k
    end in
  match api_key with
  | None => inl MissingOpenAIAPIKeyException
  | Some k => inr k
  end.

(** [__init__] *)
Definition __init__ (environ : gmap string string)
    (api_key : option string) : exn + OpenAI :=
  match api_key with
  | None =>
      match get_api_key environ None with
      | inr k => inr {| api_key := k |}
      | inl e => inl e
      end
  | Some k => inr {| api_key := k |}
  end.

Section Client.

(** Iteration over a [set] of strings: the interpreter fixes the order
    (it follows the hashes of the elements), the program does not. *)
Variable set_iter : gset string → list string.

(** The collaborators: [..processor.image.encode_image_to_base64] and
    the session's [post]. *)
Variable encode_image_to_base64 : string → exn + string.
Variable session_post : request → exn + response.

(** [str] of a decoded JSON object. *)
Variable str_value : value → string.

(** The two format strings of [..constants.messages.Messages]. *)
Variable OPENAI_COMPLETION_ERROR : template.
Variable OPENAI_NON_200_RESPONSE : template.

(** [validate_llm_params]: [params] is the caller's dict object. *)
Definition validate_llm_params (params : loc) : M loc :=
  let* defaults := load DEFAULT_LLM_PARAMS_ref in
  let* candidate := load params in
  let valid_keys : gset string := dom defaults in
  let invalid_keys : gset string := dom candidate ∖ valid_keys in
  if decide (invalid_keys = ∅)
  then alloc (candidate ∪ defaults)
  else raise (InvalidLLMParamsException
                ("Invalid LLM parameters: " +:+
                 join ", " (set_iter invalid_keys))).

(** [_prepare_messages] *)
Definition _prepare_messages (self : OpenAI) (image_path : string)
    (maintain_format : bool) (prior_page : string) : M (list value) :=
  let messages :=
    [VDict [("role", VStr "system"); ("content", VStr _system_prompt)]] in
  let messages :=
    if maintain_format && truthy_str prior_page
    then messages ++
         [VDict [("role", VStr "system");
                 ("content",
                  VStr ("Markdown must maintain consistent formatting with the following page: " +:+
                        newline +:+ newline +:+ " " +:+
                        dquote +:+ dquote +:+ dquote +:+ prior_page +:+
                        dquote +:+ dquote +:+ dquote))]]
    else messages in
  let* base64_image := call EncodeImage encode_image_to_base64 image_path in
  ret (messages ++
       [VDict [("role", VStr "user");
               ("content",
                VList [VDict [("type", VStr "image_url");
                              ("image_url",
                               VDict [("url",
                                       VStr ("data:image/png;base64," +:+
                                             base64_image))])]])]]).

(** The request [_make_request] posts. *)
Definition chat_request (self : OpenAI) (messages : list value)
    (model : string) : request :=
  {| url := "https://api.openai.com/v1/chat/completions";
     json := VDict [("messages", VList messages); ("model", VStr model)];
     headers := [("Authorization", "Bearer " +:+ api_key self);
                 ("Content-Type", "application/json")] |}.

(** [_make_request] *)
Definition _make_request (self : OpenAI) (messages : list value)
    (model : string) : M CompletionResponse :=
  let* response := call HttpPost session_post
                     (chat_request self messages model) in
  let* data := lift (json_body response) in
  if negb (status response =? 200)%Z
  then
    let* msg := lift (format OPENAI_NON_200_RESPONSE []
                        [("status_code", pretty (status response));
                         ("data", str_value data)]) in
    raise (Exception msg)
  else
    let* choices := lift (getitem data (KStr "choices")) in
    let* choice := lift (getitem choices (KInt 0)) in
    let* message := lift (getitem choice (KStr "message")) in
    let* content := lift (getitem message (KStr "content")) in
    let* usage := lift (getitem data (KStr "usage")) in
    let* prompt_tokens := lift (getitem usage (KStr "prompt_tokens")) in
    let* usage' := lift (getitem data (KStr "usage")) in
    let* completion_tokens :=
      lift (getitem usage' (KStr "completion_tokens")) in
    ret {| content := content;
           input_tokens := prompt_tokens;
           output_tokens := completion_tokens |}.

(** [llm_params or {}]: [None] and the empty dict are both falsy. *)
Definition or_empty_dict (llm_params : option loc) : M loc :=
  match llm_params with
  | None => alloc ∅
  | Some l =>
      let* d := load l in
      if decide (dom d = ∅) then alloc ∅ else ret l
  end.

(** [completion] *)
Definition completion (self : OpenAI) (image_path : string)
    (maintain_format : bool) (prior_page : string) (model : string)
    (llm_params : option loc) : M CompletionResponse :=
  let* messages :=
    _prepare_messages self image_path maintain_format prior_page in
  let* params := or_empty_dict llm_params in
  let* validated_llm_params := validate_llm_params params in
  try_except
    (_make_request self messages model)
    (λ err,
       let* msg := lift (format OPENAI_COMPLETION_ERROR [str_exn err] []) in
       raise (Exception msg)).

End Client.

End Openai.


(** ** The behaviour the specification words, for comparison *)
Module Claims.
Import Py Rt Openai.

(** The three kinds of message a request carries. *)
Definition system_message : value :=
  VDict [("role", VStr "system"); ("content", VStr _system_prompt)].

Definition consistency_message (text : string) : value :=
  VDict [("role", VStr "system"); ("content", VStr text)].

Definition image_message (encoded : string) : value :=
  VDict [("role", VStr "user");
         ("content",
          VList [VDict [("type", VStr "image_url");
                        ("image_url",
                         VDict [("url",
                                 VStr ("data:image/png;base64," +:+
                                       encoded))])]])].

(** [resolveApiKey] as the specification describes it: an empty explicit
    key falls through to the environment, an empty environment value
    counts as absent. *)
Definition resolveApiKey_spec (environ : gmap string string)
    (explicit : option string) : exn + string :=
  let from_environ :=
    match environ !! "OPENAI_API_KEY" with
    | Some v => if truthy_str v then inr v
                else inl MissingOpenAIAPIKeyException
    | None => inl MissingOpenAIAPIKeyException
    end in
  match explicit with
  | Some k => if truthy_str k then inr k else from_environ
  | None => from_environ
  end.

(** The allowed parameter names. *)
Definition allowed_keys : gset string :=
  {[ "max_tokens"; "temperature"; "top_p"; "frequency_penalty";
     "presence_penalty" ]}.

(** The default parameter set as the specification lists it. *)
Definition default_parameter_set : list (string * Z) :=
  [("max_tokens", 1000%Z); ("temperature", 0%Z); ("top_p", 1%Z);
   ("frequency_penalty", 0%Z); ("presence_penalty", 0%Z)].

Definition default_parameters : gmap string Z :=
  list_to_map default_parameter_set.

(** An iteration order a [set] may have: each element once. *)
Definition admissible_iteration (it : gset string → list string) : Prop :=
  ∀ X, it X ≡ₚ elements X.

(** The rejection message has a deterministic order when it does not
    depend on the iteration order the interpreter happens to use. *)
Definition rejection_order_fixed : Prop :=
  ∀ it1 it2 params s,
    admissible_iteration it1 → admissible_iteration it2 →
    validate_llm_params it1 params s = validate_llm_params it2 params s.

(** The order of the specification: validation comes first, so a call
    with an unknown parameter fails with [InvalidLLMParamsException]
    before the encoder is called (the trace is left as it was). *)
Definition validation_precedes_encoding : Prop :=
  ∀ set_iter encode_image_to_base64 session_post str_value
    completion_error non_200 self image_path maintain_format prior_page
    model params candidate bad s,
    heap s !! DEFAULT_LLM_PARAMS_ref = Some DEFAULT_LLM_PARAMS →
    heap s !! params = Some candidate →
    bad ∈ dom candidate → bad ∉ allowed_keys →
    ∃ msg,
      completion set_iter encode_image_to_base64 session_post str_value
        completion_error non_200 self image_path maintain_format prior_page
        model (Some params) s =
      (inl (InvalidLLMParamsException msg), s).

(** The specification's failure path: every response with a status other
    than 200 ends in the [Exception] made from the non-200 template. *)
Definition non_200_always_reported : Prop :=
  ∀ session_post str_value non_200 self messages model s resp,
    session_post (chat_request self messages model) = inr resp →
    status resp ≠ 200%Z →
    ∃ msg,
      (_make_request session_post str_value non_200 self messages model s).1 =
      inl (Exception msg).

(** Navigation in a JSON document: the member of an object, the
    element of an array. *)
Inductive step : Type :=
| Member (name : string)
| Element (i : nat).

Fixpoint json_path (p : list step) (v : value) : option value :=
  match p with
  | [] => Some v
  | Member k :: p' =>
      match v with
      | VDict d =>
          match dict_get k d with
          | Some x => json_path p' x
          | None => None
          end
      | _ => None
      end
  | Element i :: p' =>
      match v with
      | VList l =>
          match l !! i with
          | Some x => json_path p' x
          | None => None
          end
      | _ => None
      end
  end.

End Claims.

(** ** Concrete collaborators, for running the client *)
Module Demo.
Import Py Rt Openai.

(** An encoder that knows one readable file. *)
Definition encode_one_file (path : string) : exn + string :=
  if String.eqb path "page.png" then inr "iVBORw0KGgo="
  else inl (Foreign "FileNotFoundError" "No such file or directory").

Definition s0 : state := State class_heap [].

(** A caller's parameter dicts, at references 2 and 3. *)
Definition good_params : gmap string value :=
  <["temperature" := VInt 1]> (<["max_tokens" := VInt 256]> ∅).

Definition bad_params : gmap string value :=
  <["foo" := VInt 1]> (<["bar" := VInt 2]> (<["top_p" := VInt 1]> ∅)).

Definition s1 : state :=
  State (<[3%positive := bad_params]>
         (<[2%positive := good_params]> class_heap)) [].

(** Two iteration orders for sets of strings. *)
Definition iter_up (X : gset string) : list string := elements X.
Definition iter_down (X : gset string) : list string := reverse (elements X).

Definition client : OpenAI := {| api_key := "sk-test" |}.

(** The message catalogue. *)
Definition completion_error : template :=
  [Lit "Error in Completion Response. Error: "; PosField 0].

Definition non_200_response : template :=
  [Lit "Model API returned status code "; NamedField "status_code";
   Lit ": "; NamedField "data"].

Definition str_value (v : value) : string :=
  match v with
  | VStr s => s
  | VInt z => pretty z
  | _ => "{...}"
  end.

(** Three transports: a completion, a rate limit, and a gateway error
    whose body is an HTML page. *)
Definition title_body : value :=
  VDict [("choices",
          VList [VDict [("message", VDict [("content", VStr "# Title")])]]);
         ("usage",
          VDict [("prompt_tokens", VInt 10); ("completion_tokens", VInt 5)])].

Definition post_ok (req : request) : exn + response :=
  inr (Response 200 (inr title_body)).

Definition post_rate_limited (req : request) : exn + response :=
  inr (Response 429 (inr (VStr "Rate limit reached"))).

Definition post_bad_gateway (req : request) : exn + response :=
  inr (Response 502
         (inl (Foreign "ContentTypeError"
                 "Attempt to decode JSON with unexpected mimetype: text/html"))).

Definition post_unreachable (req : request) : exn + response :=
  inl (Foreign "ClientConnectorError" "Cannot connect to host").

End Demo.

(** ** Notions used to state how the steps compose *)
Module Laws.
Import Py Rt Openai.

(** Every dict object of [s] is in [s'] with the content it had. *)
Definition extends (s s' : state) : Prop :=
  ∀ l, is_Some (heap s !! l) → heap s' !! l = heap s !! l.

(** The caller's parameters pass the validation in [s]: there are none,
    or every key of the mapping is a key of the dict bound to
    [DEFAULT_LLM_PARAMS]. *)
Definition acceptable (llm_params : option loc) (s : state) : Prop :=
  match llm_params with
  | None => True
  | Some params =>
      ∃ candidate defaults,
        heap s !! params = Some candidate ∧
        heap s !! DEFAULT_LLM_PARAMS_ref = Some defaults ∧
        dom candidate ⊆ dom defaults
  end.

(** The last statement of [_make_request]: the response built from the
    decoded body, the keyword arguments evaluated from left to right. *)
Definition completion_of_body (data : value) : exn + CompletionResponse :=
  match getitem data (KStr "choices") with
  | inl e => inl e
  | inr choices =>
  match getitem choices (KInt 0) with
  | inl e => inl e
  | inr choice =>
  match getitem choice (KStr "message") with
  | inl e => inl e
  | inr message =>
  match getitem message (KStr "content") with
  | inl e => inl e
  | inr text =>
  match getitem data (KStr "usage") with
  | inl e => inl e
  | inr usage =>
  match getitem usage (KStr "prompt_tokens") with
  | inl e => inl e
  | inr prompt_tokens =>
  match getitem usage (KStr "completion_tokens") with
  | inl e => inl e
  | inr completion_tokens =>
      inr {| content := text;
             input_tokens := prompt_tokens;
             output_tokens := completion_tokens |}
  end end end end end end end.

End Laws.

(** ** More transports and environments *)
Module Samples.
Import Py Rt Openai.

Definition environ_with_key : gmap string string :=
  {[ "OPENAI_API_KEY" := "envkey" ]}.

(** A 200 whose body is an error object. *)
Definition error_body : value :=
  VDict [("error", VDict [("message", VStr "overloaded")])].

Definition post_error_body (req : request) : exn + response :=
  inr (Response 200 (inr error_body)).

(** A 200 with no choice. *)
Definition no_choice_body : value :=
  VDict [("choices", VList []);
         ("usage",
          VDict [("prompt_tokens", VInt 10); ("completion_tokens", VInt 0)])].

Definition post_no_choice (req : request) : exn + response :=
  inr (Response 200 (inr no_choice_body)).

(** A 200 with a choice and no usage. *)
Definition no_usage_body : value :=
  VDict [("choices",
          VList [VDict [("message", VDict [("content", VStr "# Title")])]])].

Definition post_no_usage (req : request) : exn + response :=
  inr (Response 200 (inr no_usage_body)).

(** A store where the class attribute has been given one more key. *)
Definition extended_defaults : gmap string value :=
  <["seed" := VInt 7]> DEFAULT_LLM_PARAMS.

Definition seed_params : gmap string value :=
  <["seed" := VInt 42]> ∅.

Definition s2 : state :=
  State (<[2%positive := seed_params]>
         {[ DEFAULT_LLM_PARAMS_ref := extended_defaults ]}) [].

(** A caller's mapping with one unknown key, and an empty one. *)
Definition one_unknown_params : gmap string value :=
  <["foo" := VInt 1]> (<["top_p" := VInt 1]> ∅).

Definition s3 : state :=
  State (<[3%positive := ∅]>
         (<[2%positive := one_unknown_params]> class_heap)) [].

End Samples.
(** ** Strings: facts about [+:+], [join] and [substring_of] *)
Module StrFacts.
Import Py.

Lemma append_cons (c : ascii) (a b : string) :
  String c a +:+ b = String c (a +:+ b).
Proof. reflexivity. Qed.

Lemma append_nil_l (a : string) : "" +:+ a = a.
Proof. reflexivity. Qed.

Lemma append_nil_r (a : string) : a +:+ "" = a.
Proof.
  induction a as [|c a IH]; [reflexivity|].
  by rewrite append_cons, IH.
Qed.

Lemma append_assoc (a b c : string) : (a +:+ b) +:+ c = a +:+ (b +:+ c).
Proof.
  induction a as [|x a IH]; [reflexivity|].
  by rewrite !append_cons, IH.
Qed.

Lemma substring_refl (a : string) : substring_of a a.
Proof. exists "", "". by rewrite append_nil_l, append_nil_r. Qed.

Lemma substring_prepend (p a b : string) :
  substring_of a b → substring_of a (p +:+ b).
Proof.
  intros (pre & post & ->). exists (p +:+ pre), post.
  by rewrite append_assoc.
Qed.

Lemma substring_append (a b q : string) :
  substring_of a b → substring_of a (b +:+ q).
Proof.
  intros (pre & post & ->). exists pre, (post +:+ q).
  by rewrite !append_assoc.
Qed.

Lemma substring_middle (p a q : string) : substring_of a (p +:+ a +:+ q).
Proof. by exists p, q. Qed.

(** Every element of the list shows in the joined string. *)
Lemma substring_join (sep k : string) (l : list string) :
  k ∈ l → substring_of k (join sep l).
Proof.
  induction l as [|x l IH]; [by intros ?%elem_of_nil|].
  intros [->|Hin]%elem_of_cons.
  - destruct l as [|y l]; [apply substring_refl|].
    change (substring_of x (x +:+ sep +:+ join sep (y :: l))).
    apply (substring_middle "").
  - destruct l as [|y l]; [by apply elem_of_nil in Hin|].
    change (substring_of k (x +:+ sep +:+ join sep (y :: l))).
    by apply substring_prepend, substring_prepend, IH.
Qed.

(** [format] succeeds when every field has its argument. *)
Lemma format_total (t : template) (args : list string)
    (kwargs : list (string * string)) :
  fields_ok (length args) (kwargs.*1) t = true →
  ∃ msg, format t args kwargs = inr msg.
Proof.
  induction t as [|p t IH]; [by exists ""|].
  intros [Hp Ht]%andb_prop. destruct (IH Ht) as [r Hr].
  destruct p as [s|n|k]; simpl in *; rewrite Hr.
  - by eexists.
  - apply bool_decide_eq_true in Hp.
    destruct (lookup_lt_is_Some_2 args n Hp) as [a ->]. by eexists.
  - apply bool_decide_eq_true in Hp.
    assert (is_Some (kw_get k kwargs)) as [a ->]; [|by eexists].
    clear -Hp. induction kwargs as [|[k' v] kw IHkw];
      [by apply elem_of_nil in Hp|].
    simpl. destruct (String.eqb_spec k k') as [->|Hne]; [by eexists|].
    apply IHkw. apply elem_of_cons in Hp as [?|?]; [done|done].
Qed.

(** [format] itself raises [IndexError] or [KeyError] only. *)
Lemma format_raises (t : template) (args : list string)
    (kwargs : list (string * string)) (e : exn) :
  format t args kwargs = inl e →
  (∃ msg, e = IndexError msg) ∨ (∃ k, e = KeyError k).
Proof.
  induction t as [|p t IH]; [done|].
  destruct p as [s|n|k]; simpl.
  - destruct (format t args kwargs); [|done]. intros [= <-]. by apply IH.
  - destruct (args !! n).
    + destruct (format t args kwargs); [|done]. intros [= <-]. by apply IH.
    + intros [= <-]. left. by eexists.
  - destruct (kw_get k kwargs).
    + destruct (format t args kwargs); [|done]. intros [= <-]. by apply IH.
    + intros [= <-]. right. by eexists.
Qed.

(** A positional argument whose field occurs in the template shows in
    the formatted text. *)
Lemma format_embeds_pos (t : template) (args : list string)
    (kwargs : list (string * string)) (n : nat) (a msg : string) :
  PosField n ∈ t → args !! n = Some a →
  format t args kwargs = inr msg → substring_of a msg.
Proof.
  revert msg. induction t as [|p t IH]; intros msg Hin Ha Hf;
    [by apply elem_of_nil in Hin|].
  apply elem_of_cons in Hin as [<-|Hin].
  - simpl in Hf. rewrite Ha in Hf.
    destruct (format t args kwargs) as [e|r]; [done|].
    injection Hf as <-. apply (substring_middle "").
  - destruct p as [s|m|k]; simpl in Hf.
    + destruct (format t args kwargs) as [e|r]; [done|].
      injection Hf as <-. by apply substring_prepend, IH.
    + destruct (args !! m) as [b|]; [|done].
      destruct (format t args kwargs) as [e|r]; [done|].
      injection Hf as <-. by apply substring_prepend, IH.
    + destruct (kw_get k kwargs) as [b|]; [|done].
      destruct (format t args kwargs) as [e|r]; [done|].
      injection Hf as <-. by apply substring_prepend, IH.
Qed.

(** The same for a keyword argument. *)
Lemma format_embeds_named (t : template) (args : list string)
    (kwargs : list (string * string)) (k a msg : string) :
  NamedField k ∈ t → kw_get k kwargs = Some a →
  format t args kwargs = inr msg → substring_of a msg.
Proof.
  revert msg. induction t as [|p t IH]; intros msg Hin Ha Hf;
    [by apply elem_of_nil in Hin|].
  apply elem_of_cons in Hin as [<-|Hin].
  - simpl in Hf. rewrite Ha in Hf.
    destruct (format t args kwargs) as [e|r]; [done|].
    injection Hf as <-. apply (substring_middle "").
  - destruct p as [s|m|k']; simpl in Hf.
    + destruct (format t args kwargs) as [e|r]; [done|].
      injection Hf as <-. by apply substring_prepend, IH.
    + destruct (args !! m) as [b|]; [|done].
      destruct (format t args kwargs) as [e|r]; [done|].
      injection Hf as <-. by apply substring_prepend, IH.
    + destruct (kw_get k' kwargs) as [b|]; [|done].
      destruct (format t args kwargs) as [e|r]; [done|].
      injection Hf as <-. by apply substring_prepend, IH.
Qed.

End StrFacts.

(** ** Credential resolution *)
Module CredentialFacts.
Import Py Rt Openai Claims.

(** C7 (as the code has it): an explicit key, empty or not, is returned
    unchanged whatever the environment holds; without an explicit key the
    value of [OPENAI_API_KEY] is returned when the variable is set, empty
    or not; with neither, the call fails with
    [MissingOpenAIAPIKeyException]. *)
Theorem get_api_key_resolution (environ : gmap string string)
    (explicit : option string) :
  get_api_key environ explicit =
  match explicit with
  | Some k => inr k
  | None =>
      match environ !! "OPENAI_API_KEY" with
      | Some v => inr v
      | None => inl MissingOpenAIAPIKeyException
      end
  end.
Proof. by destruct explicit. Qed.

(** C7 fails as stated: an empty explicit key is returned as the
    credential, where the specification falls through to the (unset)
    environment and fails. *)
Lemma get_api_key_empty_explicit_returned :
  get_api_key ∅ (Some "") = inr "" ∧
  get_api_key ∅ (Some "") ≠ resolveApiKey_spec ∅ (Some "").
Proof. split; [reflexivity|discriminate]. Qed.

(** The same for an empty value in the environment. *)
Lemma get_api_key_empty_environ_returned :
  get_api_key {[ "OPENAI_API_KEY" := "" ]} None = inr "" ∧
  resolveApiKey_spec {[ "OPENAI_API_KEY" := "" ]} None =
    inl MissingOpenAIAPIKeyException.
Proof. split; reflexivity. Qed.

(** On the inputs the specification's examples use, code and
    specification agree. *)
Lemma get_api_key_nonempty (environ : gmap string string) (k : string) :
  truthy_str k = true →
  get_api_key environ (Some k) = resolveApiKey_spec environ (Some k).
Proof. intros Hk. unfold resolveApiKey_spec. by rewrite Hk. Qed.

(** The constructor stores what [get_api_key] resolves. *)
Lemma init_api_key (environ : gmap string string)
    (explicit : option string) :
  __init__ environ explicit =
  match get_api_key environ explicit with
  | inr k => inr {| api_key := k |}
  | inl e => inl e
  end.
Proof. by destruct explicit. Qed.

End CredentialFacts.

(** ** Message construction *)
Module MessageFacts.
Import Py Rt Openai Claims StrFacts.

Section Encoder.
Variable encode_image_to_base64 : string → exn + string.

(** The encoder is called exactly once, whatever it answers. *)
Lemma prepare_messages_trace self image_path maintain_format prior_page s :
  trace (_prepare_messages encode_image_to_base64 self image_path
           maintain_format prior_page s).2 =
  trace s ++ [EncodeImage image_path].
Proof.
  unfold _prepare_messages, bind, call, ret. simpl.
  by destruct (encode_image_to_base64 image_path).
Qed.

(** A failure of the encoder is the failure of the construction. *)
Lemma prepare_messages_raises self image_path maintain_format prior_page s e :
  encode_image_to_base64 image_path = inl e →
  _prepare_messages encode_image_to_base64 self image_path
    maintain_format prior_page s =
  (inl e, State (heap s) (trace s ++ [EncodeImage image_path])).
Proof.
  intros He. unfold _prepare_messages, bind, call, ret. simpl.
  by rewrite He.
Qed.

(** With the image encoded, the construction returns. *)
Lemma prepare_messages_returns self image_path maintain_format prior_page
    encoded s :
  encode_image_to_base64 image_path = inr encoded →
  ∃ messages,
    _prepare_messages encode_image_to_base64 self image_path
      maintain_format prior_page s =
    (inr messages, State (heap s) (trace s ++ [EncodeImage image_path])).
Proof.
  intros He. unfold _prepare_messages, bind, call, ret. simpl.
  rewrite He. by eexists.
Qed.

(** C1: with [encoded] the encoder's answer for the image, the messages
    are, in this order, the base system message, then (exactly when
    [maintain_format] holds and [prior_page] is not empty) a system
    message whose text contains [prior_page], then the user message whose
    only part is the image as a [data:image/png;base64,] URL; three
    messages in the first case and two otherwise. *)
Theorem prepare_messages_order (self : OpenAI) (image_path : string)
    (maintain_format : bool) (prior_page encoded : string) (s : state) :
  encode_image_to_base64 image_path = inr encoded →
  ∃ messages,
    _prepare_messages encode_image_to_base64 self image_path
      maintain_format prior_page s =
    (inr messages, State (heap s) (trace s ++ [EncodeImage image_path])) ∧
    ((maintain_format = true ∧ prior_page ≠ "" ∧ length messages = 3 ∧
      ∃ text, substring_of prior_page text ∧
        messages = [system_message; consistency_message text;
                    image_message encoded]) ∨
     ((maintain_format = false ∨ prior_page = "") ∧ length messages = 2 ∧
      messages = [system_message; image_message encoded])).
Proof.
  intros He. unfold _prepare_messages, bind, call, ret. simpl.
  rewrite He. eexists; split; [reflexivity|].
  destruct maintain_format, prior_page as [|c pp]; simpl;
    try (right; split; [by auto|by split]).
  left. repeat split; [done|].
  eexists; split; [|reflexivity].
  do 7 apply substring_prepend.
  apply substring_append, substring_refl.
Qed.

End Encoder.

(** The specification's example: three messages for [maintain_format]
    with prior page [Hello]. *)
Lemma prepare_messages_order_witness :
  Demo.encode_one_file "page.png" = inr "iVBORw0KGgo=" ∧
  ∃ messages,
    _prepare_messages Demo.encode_one_file Demo.client "page.png"
      true "Hello" Demo.s0 =
    (inr messages,
     State (heap Demo.s0) (trace Demo.s0 ++ [EncodeImage "page.png"])) ∧
    ((true = true ∧ "Hello" ≠ "" ∧ length messages = 3 ∧
      ∃ text, substring_of "Hello" text ∧
        messages = [system_message; consistency_message text;
                    image_message "iVBORw0KGgo="]) ∨
     ((true = false ∨ "Hello" = "") ∧ length messages = 2 ∧
      messages = [system_message; image_message "iVBORw0KGgo="])).
Proof.
  split; [reflexivity|].
  apply (prepare_messages_order Demo.encode_one_file). reflexivity.
Defined.

Example prepare_messages_two :
  (_prepare_messages Demo.encode_one_file Demo.client "page.png"
     false "" Demo.s0).1 =
  inr [system_message; image_message "iVBORw0KGgo="].
Proof. reflexivity. Qed.

End MessageFacts.

(** ** Parameter validation *)
Module ValidationFacts.
Import Py Rt Openai Claims StrFacts.

Lemma dom_DEFAULT_LLM_PARAMS : dom DEFAULT_LLM_PARAMS = allowed_keys.
Proof. reflexivity. Qed.

Lemma DEFAULT_LLM_PARAMS_values :
  DEFAULT_LLM_PARAMS = VInt <$> default_parameters.
Proof. reflexivity. Qed.

Section Iteration.
Variable set_iter : gset string → list string.

(** What a call does, by cases on the offending keys. *)
Lemma validate_llm_params_eq (params : loc) (s : state) :
  validate_llm_params set_iter params s =
  let defaults := default ∅ (heap s !! DEFAULT_LLM_PARAMS_ref) in
  let candidate := default ∅ (heap s !! params) in
  if decide (dom candidate ∖ dom defaults = ∅)
  then (inr (fresh (dom (heap s))),
        State (<[fresh (dom (heap s)) := candidate ∪ defaults]> (heap s))
              (trace s))
  else (inl (InvalidLLMParamsException
               ("Invalid LLM parameters: " +:+
                join ", " (set_iter (dom candidate ∖ dom defaults)))), s).
Proof.
  unfold validate_llm_params, bind, load, alloc, raise. simpl.
  by destruct (decide _).
Qed.

Lemma fresh_unallocated (s : state) : heap s !! fresh (dom (heap s)) = None.
Proof. apply not_elem_of_dom, is_fresh. Qed.

(** C2: a mapping with allowed keys only is accepted; the result is a
    new dict in which every supplied key has the supplied value, every
    other allowed key has its default, and the keys are exactly the
    allowed ones. *)
Theorem validate_llm_params_merges (s : state) (params : loc)
    (candidate : gmap string value) :
  heap s !! DEFAULT_LLM_PARAMS_ref = Some DEFAULT_LLM_PARAMS →
  heap s !! params = Some candidate →
  dom candidate ⊆ allowed_keys →
  ∃ result merged,
    validate_llm_params set_iter params s =
      (inr result, State (<[result := merged]> (heap s)) (trace s)) ∧
    heap s !! result = None ∧
    (∀ k v, candidate !! k = Some v → merged !! k = Some v) ∧
    (∀ k, candidate !! k = None →
          merged !! k = VInt <$> default_parameters !! k) ∧
    (∀ k, k ∈ allowed_keys → is_Some (merged !! k)) ∧
    dom merged = allowed_keys.
Proof.
  intros Hd Hp Hsub. rewrite validate_llm_params_eq, Hd, Hp. simpl.
  rewrite dom_DEFAULT_LLM_PARAMS.
  destruct (decide _) as [_|Hne].
  2:{ exfalso. apply Hne, elem_of_equiv_empty_L.
      intros k [Hk Hk']%elem_of_difference. auto. }
  exists (fresh (dom (heap s))), (candidate ∪ DEFAULT_LLM_PARAMS).
  assert (dom (candidate ∪ DEFAULT_LLM_PARAMS) = allowed_keys) as Hdom.
  { rewrite dom_union_L, dom_DEFAULT_LLM_PARAMS.
    by apply subseteq_union_1_L. }
  split_and!; [done|apply fresh_unallocated| | | |done].
  - intros k v Hk. by apply lookup_union_Some_l.
  - intros k Hk. rewrite lookup_union_r by done.
    by rewrite DEFAULT_LLM_PARAMS_values, lookup_fmap.
  - intros k Hk. apply elem_of_dom. by rewrite Hdom.
Qed.

(** C3 (as the code has it): a mapping with at least one key outside
    the allowed set is rejected with [InvalidLLMParamsException]; the
    message joins with [", "] the offending keys, each once and no other,
    in the order the iteration over the set of offending keys gives, so
    every offending key shows in it.  The store is left as it was. *)
Theorem validate_llm_params_rejects (s : state) (params : loc)
    (candidate : gmap string value) (bad : string) :
  admissible_iteration set_iter →
  heap s !! DEFAULT_LLM_PARAMS_ref = Some DEFAULT_LLM_PARAMS →
  heap s !! params = Some candidate →
  bad ∈ dom candidate → bad ∉ allowed_keys →
  ∃ offending msg,
    validate_llm_params set_iter params s =
      (inl (InvalidLLMParamsException msg), s) ∧
    msg = "Invalid LLM parameters: " +:+ join ", " offending ∧
    offending = set_iter (dom candidate ∖ allowed_keys) ∧
    NoDup offending ∧
    (∀ k, k ∈ offending ↔ k ∈ dom candidate ∧ k ∉ allowed_keys) ∧
    (∀ k, k ∈ dom candidate → k ∉ allowed_keys → substring_of k msg).
Proof.
  intros Hit Hd Hp Hin Hnot.
  rewrite validate_llm_params_eq, Hd, Hp. simpl.
  rewrite dom_DEFAULT_LLM_PARAMS.
  destruct (decide _) as [He|_].
  { exfalso. apply (not_elem_of_empty (C := gset string) bad).
    rewrite <- He. by apply elem_of_difference. }
  assert (∀ k, k ∈ set_iter (dom candidate ∖ allowed_keys) ↔
               k ∈ dom candidate ∧ k ∉ allowed_keys) as Hmem.
  { intros k. rewrite (Hit _), elem_of_elements.
    apply elem_of_difference. }
  do 2 eexists. split_and!; [reflexivity|reflexivity|reflexivity| |done|].
  - rewrite (Hit _). apply NoDup_elements.
  - intros k Hk Hk'. apply substring_prepend, substring_join.
    by apply Hmem.
Qed.

(** A rejection, whatever the iteration order. *)
Lemma validate_llm_params_rejects_any (s : state) (params : loc)
    (candidate : gmap string value) (bad : string) :
  heap s !! DEFAULT_LLM_PARAMS_ref = Some DEFAULT_LLM_PARAMS →
  heap s !! params = Some candidate →
  bad ∈ dom candidate → bad ∉ allowed_keys →
  ∃ msg,
    validate_llm_params set_iter params s =
      (inl (InvalidLLMParamsException msg), s).
Proof.
  intros Hd Hp Hin Hnot.
  rewrite validate_llm_params_eq, Hd, Hp. simpl.
  rewrite dom_DEFAULT_LLM_PARAMS.
  destruct (decide _) as [He|_]; [|by eexists].
  exfalso. apply (not_elem_of_empty (C := gset string) bad).
  rewrite <- He. by apply elem_of_difference.
Qed.

(** C10: a call changes no dict object that exists when it is made, in
    particular neither the caller's mapping nor [DEFAULT_LLM_PARAMS];
    it calls no collaborator; a call on a mapping whose keys are all
    keys of the defaults returns a reference that was not allocated
    before, to a new dict holding the mapping merged over the defaults,
    and any other call raises [InvalidLLMParamsException] and leaves the
    state as it was; a second call on the same mapping returns a distinct
    object with the same content, or raises the same error. *)
Theorem validate_llm_params_pure (s : state) (params : loc)
    (candidate defaults : gmap string value) :
  heap s !! DEFAULT_LLM_PARAMS_ref = Some defaults →
  heap s !! params = Some candidate →
  let r1 := validate_llm_params set_iter params s in
  let r2 := validate_llm_params set_iter params r1.2 in
  (∀ l, is_Some (heap s !! l) → heap r1.2 !! l = heap s !! l) ∧
  heap r1.2 !! params = Some candidate ∧
  heap r1.2 !! DEFAULT_LLM_PARAMS_ref = Some defaults ∧
  trace r1.2 = trace s ∧
  match r1.1, r2.1 with
  | inr l1, inr l2 =>
      heap s !! l1 = None ∧ l1 ≠ l2 ∧
      is_Some (heap r2.2 !! l1) ∧ heap r2.2 !! l1 = heap r2.2 !! l2
  | inl e1, inl e2 => e1 = e2 ∧ r1.2 = s
  | _, _ => False
  end ∧
  (dom candidate ⊆ dom defaults →
   ∃ l1 l2,
     r1 = (inr l1,
           State (<[l1 := candidate ∪ defaults]> (heap s)) (trace s)) ∧
     heap s !! l1 = None ∧ l1 ≠ params ∧ l1 ≠ DEFAULT_LLM_PARAMS_ref ∧
     r2.1 = inr l2 ∧ l2 ≠ l1 ∧
     heap r2.2 !! l1 = Some (candidate ∪ defaults) ∧
     heap r2.2 !! l2 = Some (candidate ∪ defaults)) ∧
  (¬ dom candidate ⊆ dom defaults →
   ∃ msg, r1 = (inl (InvalidLLMParamsException msg), s) ∧
          r2 = (inl (InvalidLLMParamsException msg), s)).
Proof.
  intros Hd Hc. simpl.
  assert (∀ l, is_Some (heap s !! l) →
            heap (validate_llm_params set_iter params s).2 !! l =
            heap s !! l) as Hframe.
  { intros l [x Hx]. rewrite validate_llm_params_eq. cbv zeta.
    destruct (decide _); simpl; [|done].
    apply lookup_insert_ne. intros Heq.
    by rewrite <- Heq, fresh_unallocated in Hx. }
  assert (heap (validate_llm_params set_iter params s).2 !! params =
          Some candidate) as Hc'
    by (rewrite Hframe, Hc; [done|by eexists]).
  assert (heap (validate_llm_params set_iter params s).2
            !! DEFAULT_LLM_PARAMS_ref = Some defaults) as Hd'
    by (rewrite Hframe, Hd; [done|by eexists]).
  split_and!; [done|done|done| | | |].
  { rewrite validate_llm_params_eq. cbv zeta. by destruct (decide _). }
  all: rewrite (validate_llm_params_eq params
                  (validate_llm_params set_iter params s).2);
    rewrite Hc', Hd'; rewrite validate_llm_params_eq, Hd, Hc; simpl.
  all: set (l1 := fresh (dom (heap s)));
    set (l2 := fresh (dom (<[l1:=candidate ∪ defaults]> (heap s))));
    assert (l1 ≠ l2) as Hne
      by (intros Heq;
          pose proof (is_fresh (dom (<[l1:=candidate ∪ defaults]> (heap s))))
            as Hf;
          fold l2 in Hf; rewrite <- Heq in Hf; apply Hf;
          rewrite dom_insert_L; by apply elem_of_union_l, elem_of_singleton).
  - destruct (decide _) as [He|Hn]; simpl; [|done].
    split_and!; [apply fresh_unallocated|done| |].
    + rewrite lookup_insert_ne by done. by rewrite lookup_insert_eq.
    + rewrite lookup_insert_ne by done. by rewrite !lookup_insert_eq.
  - intros Hsub. destruct (decide _) as [He|Hn]; simpl.
    2:{ exfalso. apply Hn, elem_of_equiv_empty_L.
        intros k [Hk Hk']%elem_of_difference. auto. }
    pose proof (fresh_unallocated s) as Hfresh. fold l1 in Hfresh.
    exists l1, l2. split_and!; [done|done| | |done|done| |].
    + intros Heq. by rewrite Heq, Hc in Hfresh.
    + intros Heq. by rewrite Heq, Hd in Hfresh.
    + rewrite lookup_insert_ne by done. by rewrite lookup_insert_eq.
    + by rewrite lookup_insert_eq.
  - intros Hsub. destruct (decide _) as [He|Hn]; simpl; [|by eexists].
    exfalso. apply Hsub. intros k Hk.
    destruct (decide (k ∈ dom defaults)) as [|Hk']; [done|].
    exfalso. apply (not_elem_of_empty (C := gset string) k).
    rewrite <- He. by apply elem_of_difference.
Qed.

End Iteration.

(** Both demonstration orders list each element once. *)
Lemma iter_up_admissible : admissible_iteration Demo.iter_up.
Proof. by intros X. Qed.

Lemma iter_down_admissible : admissible_iteration Demo.iter_down.
Proof. intros X. apply reverse_Permutation. Qed.

(** A caller overriding two parameters. *)
Lemma validate_llm_params_merges_witness :
  heap Demo.s1 !! DEFAULT_LLM_PARAMS_ref = Some DEFAULT_LLM_PARAMS ∧
  heap Demo.s1 !! 2%positive = Some Demo.good_params ∧
  dom Demo.good_params ⊆ allowed_keys ∧
  ∃ result merged,
    validate_llm_params Demo.iter_up 2%positive Demo.s1 =
      (inr result,
       State (<[result := merged]> (heap Demo.s1)) (trace Demo.s1)) ∧
    heap Demo.s1 !! result = None ∧
    (∀ k v, Demo.good_params !! k = Some v → merged !! k = Some v) ∧
    (∀ k, Demo.good_params !! k = None →
          merged !! k = VInt <$> default_parameters !! k) ∧
    (∀ k, k ∈ allowed_keys → is_Some (merged !! k)) ∧
    dom merged = allowed_keys.
Proof.
  assert (dom Demo.good_params ⊆ allowed_keys) as Hsub.
  { compute_done. }
  split_and!; [reflexivity|reflexivity|exact Hsub|].
  apply (validate_llm_params_merges Demo.iter_up);
    [reflexivity|reflexivity|exact Hsub].
Defined.

Example validate_llm_params_override :
  heap (validate_llm_params Demo.iter_up 2%positive Demo.s1).2 !! 4%positive =
  Some (<["max_tokens" := VInt 256]>
          (<["temperature" := VInt 1]> DEFAULT_LLM_PARAMS)).
Proof. reflexivity. Qed.

(** A caller passing two unknown keys next to a known one. *)
Lemma validate_llm_params_rejects_witness :
  admissible_iteration Demo.iter_up ∧
  heap Demo.s1 !! DEFAULT_LLM_PARAMS_ref = Some DEFAULT_LLM_PARAMS ∧
  heap Demo.s1 !! 3%positive = Some Demo.bad_params ∧
  "foo" ∈ dom Demo.bad_params ∧ ("foo" ∉ allowed_keys) ∧
  ∃ offending msg,
    validate_llm_params Demo.iter_up 3%positive Demo.s1 =
      (inl (InvalidLLMParamsException msg), Demo.s1) ∧
    msg = "Invalid LLM parameters: " +:+ join ", " offending ∧
    offending = Demo.iter_up (dom Demo.bad_params ∖ allowed_keys) ∧
    NoDup offending ∧
    (∀ k, k ∈ offending ↔ k ∈ dom Demo.bad_params ∧ k ∉ allowed_keys) ∧
    (∀ k, k ∈ dom Demo.bad_params → k ∉ allowed_keys → substring_of k msg).
Proof.
  assert ("foo" ∈ dom Demo.bad_params) as Hin.
  { compute_done. }
  assert ("foo" ∉ allowed_keys) as Hnot.
  { compute_done. }
  split_and!;
    [exact iter_up_admissible|reflexivity|reflexivity|exact Hin|exact Hnot|].
  apply (validate_llm_params_rejects Demo.iter_up _ _ _ "foo");
    [exact iter_up_admissible|reflexivity|reflexivity|exact Hin|exact Hnot].
Defined.

(** C3 fails as stated: the order of the keys in the message is the
    iteration order of a set, which the input does not fix.  On the
    mapping with the unknown keys [foo] and [bar], one admissible order
    gives [foo, bar] and another [bar, foo]. *)
Lemma rejection_order_not_fixed :
  admissible_iteration Demo.iter_up ∧
  admissible_iteration Demo.iter_down ∧
  validate_llm_params Demo.iter_up 3%positive Demo.s1 =
    (inl (InvalidLLMParamsException "Invalid LLM parameters: foo, bar"),
     Demo.s1) ∧
  validate_llm_params Demo.iter_down 3%positive Demo.s1 =
    (inl (InvalidLLMParamsException "Invalid LLM parameters: bar, foo"),
     Demo.s1) ∧
  ¬ rejection_order_fixed.
Proof.
  split_and!;
    [exact iter_up_admissible|exact iter_down_admissible
    |reflexivity|reflexivity|].
  intros Hfixed.
  specialize (Hfixed Demo.iter_up Demo.iter_down 3%positive Demo.s1
                iter_up_admissible iter_down_admissible).
  apply (f_equal fst) in Hfixed. vm_compute in Hfixed. discriminate.
Qed.

(** Two calls in a row on the caller's mapping. *)
Lemma validate_llm_params_pure_witness :
  heap Demo.s1 !! DEFAULT_LLM_PARAMS_ref = Some DEFAULT_LLM_PARAMS ∧
  heap Demo.s1 !! 2%positive = Some Demo.good_params ∧
  dom Demo.good_params ⊆ dom DEFAULT_LLM_PARAMS ∧
  let r1 := validate_llm_params Demo.iter_up 2%positive Demo.s1 in
  let r2 := validate_llm_params Demo.iter_up 2%positive r1.2 in
  (∀ l, is_Some (heap Demo.s1 !! l) → heap r1.2 !! l = heap Demo.s1 !! l) ∧
  heap r1.2 !! 2%positive = Some Demo.good_params ∧
  heap r1.2 !! DEFAULT_LLM_PARAMS_ref = Some DEFAULT_LLM_PARAMS ∧
  trace r1.2 = trace Demo.s1 ∧
  ∃ l1 l2,
    r1 = (inr l1,
          State (<[l1 := Demo.good_params ∪ DEFAULT_LLM_PARAMS]>
                   (heap Demo.s1)) (trace Demo.s1)) ∧
    heap Demo.s1 !! l1 = None ∧ l1 ≠ 2%positive ∧
    l1 ≠ DEFAULT_LLM_PARAMS_ref ∧
    r2.1 = inr l2 ∧ l2 ≠ l1 ∧
    heap r2.2 !! l1 = Some (Demo.good_params ∪ DEFAULT_LLM_PARAMS) ∧
    heap r2.2 !! l2 = Some (Demo.good_params ∪ DEFAULT_LLM_PARAMS).
Proof.
  assert (dom Demo.good_params ⊆ dom DEFAULT_LLM_PARAMS) as Hsub
    by compute_done.
  split_and!; [reflexivity|reflexivity|exact Hsub|].
  destruct (validate_llm_params_pure Demo.iter_up Demo.s1 2%positive
              Demo.good_params DEFAULT_LLM_PARAMS eq_refl eq_refl)
    as (Hframe & Hp & Hd & Ht & _ & Hacc & _).
  split_and!; [exact Hframe|exact Hp|exact Hd|exact Ht|exact (Hacc Hsub)].
Defined.

(** The same call, run: the new dict is at the next free reference. *)
Example validate_llm_params_returns_new :
  (validate_llm_params Demo.iter_up 2%positive Demo.s1).1 = inr 4%positive ∧
  heap (validate_llm_params Demo.iter_up 2%positive Demo.s1).2 !! 4%positive =
    Some (Demo.good_params ∪ DEFAULT_LLM_PARAMS) ∧
  heap Demo.s1 !! 4%positive = None.
Proof. split_and!; reflexivity. Qed.

End ValidationFacts.

(** ** Computations that do not touch the state *)
Module SilentFacts.
Import Py Rt.

Lemma silent_ret {A} (a : A) : silent (ret a).
Proof. by intros s. Qed.

Lemma silent_raise {A} (e : exn) : silent (raise (A := A) e).
Proof. by intros s. Qed.

Lemma silent_lift {A} (r : exn + A) : silent (lift r).
Proof. by intros s. Qed.

Lemma silent_load (l : loc) : silent (load l).
Proof. by intros s. Qed.

Lemma silent_bind {A B} (m : M A) (k : A → M B) :
  silent m → (∀ a, silent (k a)) → silent (bind m k).
Proof.
  intros Hm Hk s. unfold bind. specialize (Hm s).
  destruct (m s) as [[e|a] s']; simpl in *; subst; [done|apply Hk].
Qed.

Lemma silent_if {A} (b : bool) (m1 m2 : M A) :
  silent m1 → silent m2 → silent (if b then m1 else m2).
Proof. by destruct b. Qed.

End SilentFacts.

Create HintDb silent.
#[export] Hint Resolve SilentFacts.silent_ret SilentFacts.silent_raise
  SilentFacts.silent_lift SilentFacts.silent_load SilentFacts.silent_bind
  SilentFacts.silent_if : silent.

(** ** The remote request *)
Module RequestFacts.
Import Py Rt Openai Claims StrFacts.

(** Navigation in the document agrees with the subscripts of the code. *)
Lemma getitem_member (k : string) (v x : value) (p : list step) :
  json_path (Member k :: p) v = Some x →
  ∃ y, getitem v (KStr k) = inr y ∧ json_path p y = Some x.
Proof.
  destruct v as [| | | | |l|d]; simpl; try done.
  destruct (dict_get k d) as [y|]; [|done]. by exists y.
Qed.

Lemma getitem_first (v x : value) (p : list step) :
  json_path (Element 0 :: p) v = Some x →
  ∃ y, getitem v (KInt 0) = inr y ∧ json_path p y = Some x.
Proof.
  destruct v as [| | | | |l|d]; simpl; try done.
  destruct l as [|y l]; [done|]. by exists y.
Qed.

Section Transport.
Variable session_post : request → exn + response.
Variable str_value : value → string.
Variable OPENAI_NON_200_RESPONSE : template.

#[local] Abbreviation make_request :=
  (_make_request session_post str_value OPENAI_NON_200_RESPONSE).

(** One call posts one request, whatever comes back. *)
Lemma make_request_state (self : OpenAI) (messages : list value)
    (model : string) (s : state) :
  (make_request self messages model s).2 =
  State (heap s) (trace s ++ [HttpPost (chat_request self messages model)]).
Proof.
  unfold _make_request, bind at 1, call.
  destruct (session_post _) as [e|resp]; [done|].
  match goal with |- (?m ?s').2 = _ => enough (silent m) as Hs by apply Hs end.
  auto 20 with silent.
Qed.

(** C4: on status 200, with a decoded body that has
    [choices[0].message.content], [usage.prompt_tokens] and
    [usage.completion_tokens], the call returns the response made of
    these three values. *)
Theorem make_request_success (self : OpenAI) (messages : list value)
    (model : string) (s : state) (resp : response)
    (data text prompt_tokens completion_tokens : value) :
  session_post (chat_request self messages model) = inr resp →
  status resp = 200%Z →
  json_body resp = inr data →
  json_path [Member "choices"; Element 0; Member "message"; Member "content"]
    data = Some text →
  json_path [Member "usage"; Member "prompt_tokens"] data =
    Some prompt_tokens →
  json_path [Member "usage"; Member "completion_tokens"] data =
    Some completion_tokens →
  make_request self messages model s =
  (inr {| content := text;
          input_tokens := prompt_tokens;
          output_tokens := completion_tokens |},
   State (heap s) (trace s ++ [HttpPost (chat_request self messages model)])).
Proof.
  intros Hpost Hst Hbody Hc Hp Ho.
  apply getitem_member in Hc as (choices & Hg1 & Hc).
  apply getitem_first in Hc as (choice & Hg2 & Hc).
  apply getitem_member in Hc as (message & Hg3 & Hc).
  apply getitem_member in Hc as (text' & Hg4 & [= ->]).
  apply getitem_member in Hp as (usage & Hg5 & Hp).
  apply getitem_member in Hp as (pt & Hg6 & [= ->]).
  apply getitem_member in Ho as (usage' & Hg7 & Ho).
  apply getitem_member in Ho as (ct & Hg8 & [= ->]).
  unfold _make_request, bind, call, lift, ret. simpl.
  rewrite Hpost, Hbody, Hst. simpl.
  rewrite Hg1, Hg2, Hg3, Hg4, Hg5, Hg6.
  rewrite Hg5 in Hg7. injection Hg7 as <-. by rewrite Hg8.
Qed.

(** C5 (as the code has it): on a status other than 200 with a body that
    decodes as JSON, the call raises [Exception] with the text of the
    non-200 template filled with the status code and the decoded body;
    the status code and the body show in the text when the template has
    the fields [status_code] and [data]. *)
Theorem make_request_non_200 (self : OpenAI) (messages : list value)
    (model : string) (s : state) (resp : response) (data : value) :
  fields_ok 0 ["status_code"; "data"] OPENAI_NON_200_RESPONSE = true →
  session_post (chat_request self messages model) = inr resp →
  status resp ≠ 200%Z →
  json_body resp = inr data →
  ∃ msg,
    make_request self messages model s =
      (inl (Exception msg),
       State (heap s)
             (trace s ++ [HttpPost (chat_request self messages model)])) ∧
    format OPENAI_NON_200_RESPONSE []
      [("status_code", pretty (status resp)); ("data", str_value data)] =
      inr msg ∧
    (NamedField "status_code" ∈ OPENAI_NON_200_RESPONSE →
       substring_of (pretty (status resp)) msg) ∧
    (NamedField "data" ∈ OPENAI_NON_200_RESPONSE →
       substring_of (str_value data) msg).
Proof.
  intros Hok Hpost Hst Hbody.
  destruct (format_total OPENAI_NON_200_RESPONSE []
              [("status_code", pretty (status resp));
               ("data", str_value data)] Hok) as [msg Hmsg].
  exists msg. split_and!; [|done| |].
  - unfold _make_request, bind, call, lift, raise. simpl.
    rewrite Hpost, Hbody. simpl.
    apply Z.eqb_neq in Hst. rewrite Hst. simpl. by rewrite Hmsg.
  - intros Hin.
    eapply format_embeds_named; [exact Hin| |exact Hmsg]. reflexivity.
  - intros Hin.
    eapply format_embeds_named; [exact Hin| |exact Hmsg]. reflexivity.
Qed.

(** When the body does not decode, the decoding error is what the call
    raises, whatever the status. *)
Lemma make_request_undecodable (self : OpenAI) (messages : list value)
    (model : string) (s : state) (resp : response) (e : exn) :
  session_post (chat_request self messages model) = inr resp →
  json_body resp = inl e →
  make_request self messages model s =
  (inl e,
   State (heap s) (trace s ++ [HttpPost (chat_request self messages model)])).
Proof.
  intros Hpost Hbody. unfold _make_request, bind, call, lift. simpl.
  by rewrite Hpost, Hbody.
Qed.

(** The request a call posts has the two fields [messages] and [model]
    in its JSON body, and no other. *)
Lemma make_request_posts (self : OpenAI) (messages : list value)
    (model : string) (s : state) :
  ∃ req,
    trace (make_request self messages model s).2 =
      trace s ++ [HttpPost req] ∧
    json req = VDict [("messages", VList messages); ("model", VStr model)] ∧
    url req = "https://api.openai.com/v1/chat/completions" ∧
    headers req = [("Authorization", "Bearer " +:+ api_key self);
                   ("Content-Type", "application/json")].
Proof.
  exists (chat_request self messages model).
  by rewrite make_request_state.
Qed.

End Transport.

(** The specification's example of a completion. *)
Lemma make_request_success_witness :
  Demo.post_ok (chat_request Demo.client [] "gpt-4o-mini") =
    inr (Response 200 (inr Demo.title_body)) ∧
  status (Response 200 (inr Demo.title_body)) = 200%Z ∧
  json_body (Response 200 (inr Demo.title_body)) = inr Demo.title_body ∧
  json_path [Member "choices"; Element 0; Member "message"; Member "content"]
    Demo.title_body = Some (VStr "# Title") ∧
  json_path [Member "usage"; Member "prompt_tokens"] Demo.title_body =
    Some (VInt 10) ∧
  json_path [Member "usage"; Member "completion_tokens"] Demo.title_body =
    Some (VInt 5) ∧
  _make_request Demo.post_ok Demo.str_value Demo.non_200_response
    Demo.client [] "gpt-4o-mini" Demo.s0 =
  (inr {| content := VStr "# Title";
          input_tokens := VInt 10;
          output_tokens := VInt 5 |},
   State (heap Demo.s0)
         (trace Demo.s0 ++
          [HttpPost (chat_request Demo.client [] "gpt-4o-mini")])).
Proof.
  split_and!; [reflexivity..|].
  apply (make_request_success Demo.post_ok Demo.str_value
           Demo.non_200_response Demo.client [] "gpt-4o-mini" Demo.s0
           (Response 200 (inr Demo.title_body)) Demo.title_body);
    reflexivity.
Defined.

(** The specification's example of a rate limit. *)
Lemma make_request_non_200_witness :
  fields_ok 0 ["status_code"; "data"] Demo.non_200_response = true ∧
  Demo.post_rate_limited (chat_request Demo.client [] "gpt-4o-mini") =
    inr (Response 429 (inr (VStr "Rate limit reached"))) ∧
  status (Response 429 (inr (VStr "Rate limit reached"))) ≠ 200%Z ∧
  json_body (Response 429 (inr (VStr "Rate limit reached"))) =
    inr (VStr "Rate limit reached") ∧
  ∃ msg,
    _make_request Demo.post_rate_limited Demo.str_value
      Demo.non_200_response Demo.client [] "gpt-4o-mini" Demo.s0 =
      (inl (Exception msg),
       State (heap Demo.s0)
             (trace Demo.s0 ++
              [HttpPost (chat_request Demo.client [] "gpt-4o-mini")])) ∧
    format Demo.non_200_response []
      [("status_code", pretty 429%Z);
       ("data", Demo.str_value (VStr "Rate limit reached"))] = inr msg ∧
    (NamedField "status_code" ∈ Demo.non_200_response →
       substring_of (pretty 429%Z) msg) ∧
    (NamedField "data" ∈ Demo.non_200_response →
       substring_of (Demo.str_value (VStr "Rate limit reached")) msg).
Proof.
  split_and!; [reflexivity|reflexivity|discriminate|reflexivity|].
  apply (make_request_non_200 Demo.post_rate_limited Demo.str_value
           Demo.non_200_response Demo.client [] "gpt-4o-mini" Demo.s0
           (Response 429 (inr (VStr "Rate limit reached")))
           (VStr "Rate limit reached"));
    [reflexivity|reflexivity|discriminate|reflexivity].
Defined.

Example make_request_429_text :
  (_make_request Demo.post_rate_limited Demo.str_value
     Demo.non_200_response Demo.client [] "gpt-4o-mini" Demo.s0).1 =
  inl (Exception "Model API returned status code 429: Rate limit reached").
Proof. reflexivity. Qed.

(** C5 fails as stated: a gateway answers 502 with an HTML page; the
    body does not decode, and the call raises the decoding error, not the
    [Exception] of the non-200 template. *)
Lemma make_request_bad_gateway :
  Demo.post_bad_gateway (chat_request Demo.client [] "gpt-4o-mini") =
    inr (Response 502
           (inl (Foreign "ContentTypeError"
                   "Attempt to decode JSON with unexpected mimetype: text/html"))) ∧
  (_make_request Demo.post_bad_gateway Demo.str_value
     Demo.non_200_response Demo.client [] "gpt-4o-mini" Demo.s0).1 =
    inl (Foreign "ContentTypeError"
           "Attempt to decode JSON with unexpected mimetype: text/html") ∧
  ¬ non_200_always_reported.
Proof.
  split_and!; [reflexivity|reflexivity|].
  intros Hall.
  destruct (Hall Demo.post_bad_gateway Demo.str_value
              Demo.non_200_response Demo.client [] "gpt-4o-mini" Demo.s0
              _ eq_refl) as [msg Hmsg]; [discriminate|].
  discriminate Hmsg.
Qed.

End RequestFacts.

(** ** The entry point *)
Module CompletionFacts.
Import Py Rt Openai Claims StrFacts.

(** [llm_params or {}] never raises and calls no collaborator; a mapping
    that is not empty is passed on as it is. *)
Lemma or_empty_dict_eq (llm_params : option loc) (s : state) :
  or_empty_dict llm_params s =
  match llm_params with
  | Some l =>
      if decide (dom (default ∅ (heap s !! l)) = (∅ : gset string))
      then (inr (fresh (dom (heap s))),
            State (<[fresh (dom (heap s)) := ∅]> (heap s)) (trace s))
      else (inr l, s)
  | None =>
      (inr (fresh (dom (heap s))),
       State (<[fresh (dom (heap s)) := ∅]> (heap s)) (trace s))
  end.
Proof.
  destruct llm_params as [l|]; [|done].
  unfold or_empty_dict, bind, load, alloc, ret. simpl.
  by destruct (decide _).
Qed.

Lemma or_empty_dict_trace (llm_params : option loc) (s : state) :
  ∃ p, (or_empty_dict llm_params s).1 = inr p ∧
       trace (or_empty_dict llm_params s).2 = trace s.
Proof.
  rewrite or_empty_dict_eq. destruct llm_params as [l|]; [|by eexists].
  destruct (decide _); by eexists.
Qed.

Lemma or_empty_dict_nonempty (l : loc) (d : gmap string value) (k : string)
    (s : state) :
  heap s !! l = Some d → k ∈ dom d →
  or_empty_dict (Some l) s = (inr l, s).
Proof.
  intros Hl Hk. rewrite or_empty_dict_eq, Hl. simpl.
  destruct (decide _) as [He|_]; [|done].
  exfalso. apply (not_elem_of_empty (C := gset string) k). by rewrite <- He.
Qed.

Section World.
Variable set_iter : gset string → list string.
Variable encode_image_to_base64 : string → exn + string.
Variable session_post : request → exn + response.
Variable str_value : value → string.
Variable OPENAI_COMPLETION_ERROR : template.
Variable OPENAI_NON_200_RESPONSE : template.

#[local] Abbreviation prepare_messages :=
  (_prepare_messages encode_image_to_base64).
#[local] Abbreviation validate := (validate_llm_params set_iter).
#[local] Abbreviation make_request :=
  (_make_request session_post str_value OPENAI_NON_200_RESPONSE).
#[local] Abbreviation run_completion :=
  (completion set_iter encode_image_to_base64 session_post str_value
     OPENAI_COMPLETION_ERROR OPENAI_NON_200_RESPONSE).

(** The steps of [completion], in the order the code takes them. *)
Lemma completion_eq (self : OpenAI) (image_path : string)
    (maintain_format : bool) (prior_page model : string)
    (llm_params : option loc) (s : state) :
  run_completion self image_path maintain_format prior_page model
    llm_params s =
  match prepare_messages self image_path maintain_format prior_page s with
  | (inl e, s1) => (inl e, s1)
  | (inr messages, s1) =>
      match or_empty_dict llm_params s1 with
      | (inl e, s2) => (inl e, s2)
      | (inr params, s2) =>
          match validate params s2 with
          | (inl e, s3) => (inl e, s3)
          | (inr _, s3) =>
              match make_request self messages model s3 with
              | (inr response, s4) => (inr response, s4)
              | (inl err, s4) =>
                  match format OPENAI_COMPLETION_ERROR [str_exn err] [] with
                  | inr msg => (inl (Exception msg), s4)
                  | inl e => (inl e, s4)
                  end
              end
          end
      end
  end.
Proof.
  unfold completion, bind, try_except, lift, raise.
  destruct (_prepare_messages _ _ _ _ _ _) as [[e|messages] s1]; [done|].
  destruct (or_empty_dict _ _) as [[e|params] s2]; [done|].
  destruct (validate_llm_params _ _ _) as [[e|v] s3]; [done|].
  destruct (_make_request _ _ _ _ _ _ _) as [[err|r] s4]; [|done].
  by destruct (format _ _ _).
Qed.

(** The calls to the collaborators: the encoder first, on every call;
    then at most one request. *)
Lemma completion_trace (self : OpenAI) (image_path : string)
    (maintain_format : bool) (prior_page model : string)
    (llm_params : option loc) (s : state) :
  ∃ later,
    trace (run_completion self image_path maintain_format prior_page model
             llm_params s).2 =
    trace s ++ EncodeImage image_path :: later ∧
    (later = [] ∨
     ∃ messages, later = [HttpPost (chat_request self messages model)]).
Proof.
  rewrite completion_eq.
  pose proof (MessageFacts.prepare_messages_trace encode_image_to_base64
                self image_path maintain_format prior_page s) as H1.
  destruct (_prepare_messages _ _ _ _ _ _) as [[e|messages] s1];
    simpl in H1; [exists []; by auto|].
  destruct (or_empty_dict_trace llm_params s1) as (p & Hp & H2).
  destruct (or_empty_dict _ _) as [[e|params] s2]; simpl in *; [done|].
  pose proof (ValidationFacts.validate_llm_params_eq set_iter params s2) as H3.
  cbv zeta in H3.
  destruct (validate_llm_params _ _ _) as [r3 s3].
  assert (trace s3 = trace s2) as H3'.
  { destruct (decide _); by injection H3 as _ ->. }
  destruct r3 as [e|v]; simpl.
  { exists []. split; [congruence|by left]. }
  pose proof (RequestFacts.make_request_state session_post str_value
                OPENAI_NON_200_RESPONSE self messages model s3) as H4.
  destruct (_make_request _ _ _ _ _ _ _) as [[err|r] s4]; simpl in H4.
  - exists [HttpPost (chat_request self messages model)]. split.
    + destruct (format _ _ _); simpl; rewrite H4; simpl;
        rewrite H3', H2, H1; by rewrite <- app_assoc.
    + right. by eexists.
  - exists [HttpPost (chat_request self messages model)]. split.
    + simpl. rewrite H4. simpl. rewrite H3', H2, H1. by rewrite <- app_assoc.
    + right. by eexists.
Qed.

(** C6: the request [_make_request] posts has a JSON body with the two
    fields [messages] and [model] and no other; and whatever parameters
    [completion] is given, the one request it may post is of this
    form. *)
Theorem request_body_fields (self : OpenAI) (image_path : string)
    (maintain_format : bool) (prior_page model : string)
    (llm_params : option loc) (messages : list value) (s : state) :
  (∃ req,
     trace (make_request self messages model s).2 =
       trace s ++ [HttpPost req] ∧
     json req = VDict [("messages", VList messages); ("model", VStr model)]) ∧
  (∃ later,
     trace (run_completion self image_path maintain_format prior_page model
              llm_params s).2 =
       trace s ++ EncodeImage image_path :: later ∧
     (later = [] ∨
      ∃ req sent, later = [HttpPost req] ∧
        json req = VDict [("messages", VList sent); ("model", VStr model)])).
Proof.
  split.
  - destruct (RequestFacts.make_request_posts session_post str_value
                OPENAI_NON_200_RESPONSE self messages model s)
      as (req & Ht & Hj & _).
    by exists req.
  - destruct (completion_trace self image_path maintain_format prior_page
                model llm_params s) as (later & Ht & [->|[sent ->]]).
    + exists []. by auto.
    + eexists. split; [exact Ht|]. right. by do 2 eexists.
Qed.

(** C8 (as the code has it): the messages are built first, so the
    encoder is called on every call; a failure of the encoder is the
    failure of the call, whatever the parameters; an unknown parameter is
    reported once the image is encoded, and then nothing is posted; and
    [InvalidLLMParamsException] never comes after a request. *)
Theorem completion_order (self : OpenAI) (image_path : string)
    (maintain_format : bool) (prior_page model : string)
    (llm_params : option loc) (s : state) :
  let r := run_completion self image_path maintain_format prior_page model
             llm_params s in
  let encoded_only := State (heap s) (trace s ++ [EncodeImage image_path]) in
  (∃ later, trace r.2 = trace s ++ EncodeImage image_path :: later) ∧
  (∀ e, encode_image_to_base64 image_path = inl e →
        r = (inl e, encoded_only)) ∧
  (∀ encoded params candidate bad,
     encode_image_to_base64 image_path = inr encoded →
     llm_params = Some params →
     heap s !! DEFAULT_LLM_PARAMS_ref = Some DEFAULT_LLM_PARAMS →
     heap s !! params = Some candidate →
     bad ∈ dom candidate → bad ∉ allowed_keys →
     ∃ msg, r = (inl (InvalidLLMParamsException msg), encoded_only)) ∧
  (∀ msg, r.1 = inl (InvalidLLMParamsException msg) →
          trace r.2 = trace s ++ [EncodeImage image_path]).
Proof.
  intros r encoded_only. subst r encoded_only. split_and!.
  - destruct (completion_trace self image_path maintain_format prior_page
                model llm_params s) as (later & Ht & _).
    by exists later.
  - intros e He. rewrite completion_eq.
    by rewrite (MessageFacts.prepare_messages_raises _ _ _ _ _ _ _ He).
  - intros encoded params candidate bad He -> Hd Hp Hin Hnot.
    rewrite completion_eq.
    destruct (MessageFacts.prepare_messages_returns encode_image_to_base64
                self image_path maintain_format prior_page encoded s He)
      as (messages & ->).
    rewrite (or_empty_dict_nonempty params candidate bad) by done.
    destruct (ValidationFacts.validate_llm_params_rejects_any set_iter
                (State (heap s) (trace s ++ [EncodeImage image_path]))
                params candidate bad Hd Hp Hin Hnot) as [msg ->].
    by exists msg.
  - intros msg Hr. rewrite completion_eq in Hr. rewrite completion_eq.
    pose proof (MessageFacts.prepare_messages_trace encode_image_to_base64
                  self image_path maintain_format prior_page s) as H1.
    destruct (_prepare_messages _ _ _ _ _ _) as [[e|messages] s1];
      simpl in H1; [done|].
    destruct (or_empty_dict_trace llm_params s1) as (p & Hp & H2).
    destruct (or_empty_dict _ _) as [[e|params] s2]; simpl in *; [done|].
    pose proof (ValidationFacts.validate_llm_params_eq set_iter params s2)
      as H3.
    cbv zeta in H3.
    destruct (validate_llm_params _ _ _) as [r3 s3].
    assert (trace s3 = trace s2) as H3'.
    { destruct (decide _); by injection H3 as _ ->. }
    destruct r3 as [e|v]; simpl; [congruence|].
    exfalso.
    destruct (_make_request _ _ _ _ _ _ _) as [[err|resp] s4]; [|done].
    pose proof (format_raises OPENAI_COMPLETION_ERROR [str_exn err] [])
      as Hf.
    destruct (format _ _ _) as [e|m]; simpl in Hr; [|done].
    injection Hr as ->. by destruct (Hf _ eq_refl) as [[? ?]|[? ?]].
Qed.


End World.

#[local] Abbreviation demo_completion post :=
  (completion Demo.iter_up Demo.encode_one_file post Demo.str_value
     Demo.completion_error Demo.non_200_response Demo.client).

(** An unknown parameter with a readable image: the image is encoded,
    then the parameters are rejected. *)
Lemma completion_order_witness :
  Demo.encode_one_file "page.png" = inr "iVBORw0KGgo=" ∧
  heap Demo.s1 !! DEFAULT_LLM_PARAMS_ref = Some DEFAULT_LLM_PARAMS ∧
  heap Demo.s1 !! 3%positive = Some Demo.bad_params ∧
  "foo" ∈ dom Demo.bad_params ∧ ("foo" ∉ allowed_keys) ∧
  ∃ msg,
    demo_completion Demo.post_ok "page.png" false "" "gpt-4o-mini"
      (Some 3%positive) Demo.s1 =
    (inl (InvalidLLMParamsException msg),
     State (heap Demo.s1) (trace Demo.s1 ++ [EncodeImage "page.png"])).
Proof.
  assert ("foo" ∈ dom Demo.bad_params) as Hin by compute_done.
  assert ("foo" ∉ allowed_keys) as Hnot by compute_done.
  split_and!; [reflexivity|reflexivity|reflexivity|exact Hin|exact Hnot|].
  destruct (completion_order Demo.iter_up Demo.encode_one_file Demo.post_ok
              Demo.str_value Demo.completion_error Demo.non_200_response
              Demo.client "page.png" false "" "gpt-4o-mini"
              (Some 3%positive) Demo.s1) as (_ & _ & Hbad & _).
  apply (Hbad "iVBORw0KGgo=" 3%positive Demo.bad_params "foo");
    [reflexivity|reflexivity|reflexivity|reflexivity|exact Hin|exact Hnot].
Defined.

(** C8 fails as stated: with an unknown parameter and an unreadable
    image the encoder is called, and the call fails with the encoder's
    error, not with [InvalidLLMParamsException]. *)
Lemma completion_encodes_before_validating :
  heap Demo.s1 !! 3%positive = Some Demo.bad_params ∧
  "foo" ∈ dom Demo.bad_params ∧ ("foo" ∉ allowed_keys) ∧
  demo_completion Demo.post_ok "missing.png" false "" "gpt-4o-mini"
    (Some 3%positive) Demo.s1 =
  (inl (Foreign "FileNotFoundError" "No such file or directory"),
   State (heap Demo.s1) [EncodeImage "missing.png"]) ∧
  ¬ validation_precedes_encoding.
Proof.
  assert ("foo" ∈ dom Demo.bad_params) as Hin by compute_done.
  assert ("foo" ∉ allowed_keys) as Hnot by compute_done.
  split_and!; [reflexivity|exact Hin|exact Hnot|reflexivity|].
  intros Hfirst.
  destruct (Hfirst Demo.iter_up Demo.encode_one_file Demo.post_ok
              Demo.str_value Demo.completion_error Demo.non_200_response
              Demo.client "missing.png" false "" "gpt-4o-mini" 3%positive
              Demo.bad_params "foo" Demo.s1 eq_refl eq_refl Hin Hnot)
    as [msg Hmsg].
  apply (f_equal fst) in Hmsg. vm_compute in Hmsg. discriminate.
Qed.


Example completion_rate_limited :
  (demo_completion Demo.post_rate_limited "page.png" true "Hello"
     "gpt-4o-mini" None Demo.s0).1 =
  inl (Exception
         "Error in Completion Response. Error: Model API returned status code 429: Rate limit reached").
Proof. reflexivity. Qed.

Example completion_unreachable :
  (demo_completion Demo.post_unreachable "page.png" false ""
     "gpt-4o-mini" None Demo.s0).1 =
  inl (Exception
         "Error in Completion Response. Error: Cannot connect to host").
Proof. reflexivity. Qed.

Example completion_title :
  (demo_completion Demo.post_ok "page.png" false "" "gpt-4o-mini"
     (Some 2%positive) Demo.s1).1 =
  inr {| content := VStr "# Title";
         input_tokens := VInt 10;
         output_tokens := VInt 5 |}.
Proof. reflexivity. Qed.

(** The parameters a caller passes do not reach the wire. *)
Example completion_posts_no_parameter :
  trace (demo_completion Demo.post_ok "page.png" false "" "gpt-4o-mini"
           (Some 2%positive) Demo.s1).2 =
  [EncodeImage "page.png";
   HttpPost
     {| url := "https://api.openai.com/v1/chat/completions";
        json := VDict [("messages",
                        VList [system_message;
                               image_message "iVBORw0KGgo="]);
                       ("model", VStr "gpt-4o-mini")];
        headers := [("Authorization", "Bearer sk-test");
                    ("Content-Type", "application/json")] |}].
Proof. reflexivity. Qed.

End CompletionFacts.

(** ** Construction of a client *)
Module ConstructorFacts.
Import Py Rt Openai.

(** X1: [__init__] succeeds exactly with the explicit key, or without one
    and with the variable set, and then holds that key; it fails exactly
    when there is neither, with [MissingOpenAIAPIKeyException]. *)
Theorem init_outcome (environ : gmap string string)
    (explicit : option string) :
  (∀ self, __init__ environ explicit = inr self ↔
           explicit = Some (api_key self) ∨
           (explicit = None ∧
            environ !! "OPENAI_API_KEY" = Some (api_key self))) ∧
  (∀ e, __init__ environ explicit = inl e ↔
        e = MissingOpenAIAPIKeyException ∧ explicit = None ∧
        environ !! "OPENAI_API_KEY" = None).
Proof.
  split.
  - intros [k]. simpl. destruct explicit as [k'|]; simpl.
    + split; [intros [= ->]; by left|].
      intros [[= ->]|[? _]]; done.
    + unfold get_api_key.
      destruct (environ !! "OPENAI_API_KEY") as [v|]; simpl.
      * split; [intros [= ->]; by right|].
        intros [?|[_ [= ->]]]; done.
      * split; [done|]. intros [?|[_ ?]]; done.
  - intros e. destruct explicit as [k'|]; simpl.
    + split; [done|]. by intros (_ & ? & _).
    + unfold get_api_key.
      destruct (environ !! "OPENAI_API_KEY") as [v|]; simpl.
      * split; [done|]. by intros (_ & _ & ?).
      * split; [by intros [= <-]|]. by intros (-> & _).
Qed.

End ConstructorFacts.

(** ** Laws of the validation *)
Module ValidationLaws.
Import Py Rt Openai Laws.

Section Iteration.
Variable set_iter : gset string → list string.

(** X2: the allowed keys are those of the dict bound to
    [DEFAULT_LLM_PARAMS] when the call is made: a mapping is accepted
    exactly when its keys are among them, and the result is the mapping
    merged over that dict, in a new object. *)
Theorem validate_llm_params_accepts_iff (s : state) (params : loc)
    (candidate defaults : gmap string value) :
  heap s !! DEFAULT_LLM_PARAMS_ref = Some defaults →
  heap s !! params = Some candidate →
  ((∃ result s', validate_llm_params set_iter params s = (inr result, s')) ↔
   dom candidate ⊆ dom defaults) ∧
  (dom candidate ⊆ dom defaults →
   ∃ result,
     validate_llm_params set_iter params s =
       (inr result,
        State (<[result := candidate ∪ defaults]> (heap s)) (trace s)) ∧
     heap s !! result = None).
Proof.
  intros Hd Hp.
  rewrite ValidationFacts.validate_llm_params_eq, Hd, Hp. simpl.
  destruct (decide _) as [He|Hne].
  - assert (dom candidate ⊆ dom defaults) as Hsub.
    { intros k Hk. destruct (decide (k ∈ dom defaults)) as [|Hn]; [done|].
      exfalso. apply (not_elem_of_empty (C := gset string) k).
      rewrite <- He. by apply elem_of_difference. }
    split; [split; [done|by eauto]|].
    intros _. eexists. split; [done|].
    apply ValidationFacts.fresh_unallocated.
  - assert (¬ dom candidate ⊆ dom defaults) as Hsub.
    { intros Hsub. apply Hne, elem_of_equiv_empty_L.
      intros k [Hk Hk']%elem_of_difference. auto. }
    split; [split; [by intros (? & ? & ?)|done]|done].
Qed.

(** X3: validating what a validation returned is accepted and gives a new
    dict with the same content: the merge is idempotent. *)
Theorem validate_llm_params_idempotent (s s1 : state) (params result : loc) :
  is_Some (heap s !! DEFAULT_LLM_PARAMS_ref) →
  validate_llm_params set_iter params s = (inr result, s1) →
  ∃ result' s2,
    validate_llm_params set_iter result s1 = (inr result', s2) ∧
    result' ≠ result ∧
    is_Some (heap s1 !! result) ∧
    heap s2 !! result' = heap s1 !! result ∧
    heap s2 !! result = heap s1 !! result.
Proof.
  intros [d Hd] Hv.
  rewrite ValidationFacts.validate_llm_params_eq, Hd in Hv. simpl in Hv.
  set (c := default ∅ (heap s !! params)) in *.
  destruct (decide _) as [He|Hne]; [|done].
  injection Hv as <- <-.
  set (r := fresh (dom (heap s))).
  assert (r ≠ DEFAULT_LLM_PARAMS_ref) as Hr.
  { intros Heq. pose proof (ValidationFacts.fresh_unallocated s) as Hf.
    fold r in Hf. by rewrite Heq, Hd in Hf. }
  rewrite ValidationFacts.validate_llm_params_eq. simpl.
  rewrite lookup_insert_eq, lookup_insert_ne, Hd by done. simpl.
  assert (dom (c ∪ d) ∖ dom d = (∅ : gset string)) as He'.
  { apply elem_of_equiv_empty_L.
    intros k [Hk Hk']%elem_of_difference.
    rewrite dom_union_L in Hk. apply elem_of_union in Hk as [Hk|Hk]; [|done].
    apply (not_elem_of_empty (C := gset string) k).
    rewrite <- He. by apply elem_of_difference. }
  destruct (decide _) as [_|Hne]; [|done].
  set (r' := fresh (dom (<[r:=c ∪ d]> (heap s)))).
  assert (r' ≠ r) as Hne.
  { intros Heq.
    pose proof (is_fresh (dom (<[r:=c ∪ d]> (heap s)))) as Hf.
    fold r' in Hf. rewrite Heq in Hf. apply Hf.
    rewrite dom_insert_L. by apply elem_of_union_l, elem_of_singleton. }
  exists r'. eexists. split; [reflexivity|]. simpl.
  split_and!; [done|by eexists| |].
  - rewrite lookup_insert_eq. f_equal.
    by rewrite <- (assoc_L (∪)), (idemp_L (∪)).
  - rewrite lookup_insert_ne by done. apply lookup_insert_eq.
Qed.

End Iteration.

(** A class attribute with one more key lets that key through. *)
Lemma validate_llm_params_accepts_iff_witness :
  heap Samples.s2 !! DEFAULT_LLM_PARAMS_ref = Some Samples.extended_defaults ∧
  heap Samples.s2 !! 2%positive = Some Samples.seed_params ∧
  ((∃ result s',
      validate_llm_params Demo.iter_up 2%positive Samples.s2 =
      (inr result, s')) ↔
   dom Samples.seed_params ⊆ dom Samples.extended_defaults) ∧
  (dom Samples.seed_params ⊆ dom Samples.extended_defaults →
   ∃ result,
     validate_llm_params Demo.iter_up 2%positive Samples.s2 =
       (inr result,
        State (<[result := Samples.seed_params ∪ Samples.extended_defaults]>
                 (heap Samples.s2)) (trace Samples.s2)) ∧
     heap Samples.s2 !! result = None).
Proof.
  split_and!; [reflexivity|reflexivity|..];
    apply (validate_llm_params_accepts_iff Demo.iter_up Samples.s2
             2%positive Samples.seed_params Samples.extended_defaults);
    reflexivity.
Defined.

Lemma validate_llm_params_idempotent_witness :
  is_Some (heap Demo.s1 !! DEFAULT_LLM_PARAMS_ref) ∧
  validate_llm_params Demo.iter_up 2%positive Demo.s1 =
    (inr 4%positive,
     (validate_llm_params Demo.iter_up 2%positive Demo.s1).2) ∧
  ∃ result' s2,
    validate_llm_params Demo.iter_up 4%positive
      (validate_llm_params Demo.iter_up 2%positive Demo.s1).2 =
      (inr result', s2) ∧
    result' ≠ 4%positive ∧
    is_Some (heap (validate_llm_params Demo.iter_up 2%positive Demo.s1).2
               !! 4%positive) ∧
    heap s2 !! result' =
      heap (validate_llm_params Demo.iter_up 2%positive Demo.s1).2
        !! 4%positive ∧
    heap s2 !! 4%positive =
      heap (validate_llm_params Demo.iter_up 2%positive Demo.s1).2
        !! 4%positive.
Proof.
  assert (is_Some (heap Demo.s1 !! DEFAULT_LLM_PARAMS_ref)) as Hd
    by (eexists; reflexivity).
  split_and!; [exact Hd|reflexivity|].
  apply (validate_llm_params_idempotent Demo.iter_up Demo.s1 _ 2%positive);
    [exact Hd|reflexivity].
Defined.

End ValidationLaws.

(** ** Laws of the remote request *)
Module RequestLaws.
Import Py Rt Openai Claims Laws StrFacts.

(** What a successful subscript says about the object. *)
Lemma getitem_str_inv (v y : value) (k : string) :
  getitem v (KStr k) = inr y → ∃ d, v = VDict d ∧ dict_get k d = Some y.
Proof.
  destruct v as [| | | | |l|d]; simpl; try done.
  destruct (dict_get k d) as [x|] eqn:Hx; [|done].
  intros [= <-]. by exists d.
Qed.

Lemma getitem_zero_inv (v y : value) :
  getitem v (KInt 0) = inr y →
  (∃ l, v = VList (y :: l)) ∨ (∃ c, y = VStr c).
Proof.
  destruct v as [| | | |s|l|d]; simpl; try done.
  - destruct (str_index 0 s); [|done]. intros [= <-]. right. by eexists.
  - destruct l as [|x l]; [done|]. intros [= <-]. left. by eexists.
Qed.

(** The response is built from the body exactly when the three paths
    are there. *)
Lemma completion_of_body_paths (data : value) (r : CompletionResponse) :
  completion_of_body data = inr r ↔
  json_path [Member "choices"; Element 0; Member "message"; Member "content"]
    data = Some (content r) ∧
  json_path [Member "usage"; Member "prompt_tokens"] data =
    Some (input_tokens r) ∧
  json_path [Member "usage"; Member "completion_tokens"] data =
    Some (output_tokens r).
Proof.
  split.
  - unfold completion_of_body.
    destruct (getitem data _) as [|choices] eqn:H1; [done|].
    destruct (getitem choices _) as [|choice] eqn:H2; [done|].
    destruct (getitem choice _) as [|message] eqn:H3; [done|].
    destruct (getitem message _) as [|text] eqn:H4; [done|].
    destruct (getitem data (KStr "usage")) as [|usage] eqn:H5; [done|].
    destruct (getitem usage _) as [|pt] eqn:H6; [done|].
    destruct (getitem usage (KStr "completion_tokens")) as [|ct] eqn:H7;
      [done|].
    intros [= <-]. simpl.
    apply getitem_str_inv in H1 as (d & -> & H1).
    apply getitem_str_inv in H3 as (dm & -> & H3).
    apply getitem_zero_inv in H2 as [[l ->]|[c [=]]].
    apply getitem_str_inv in H4 as (dc & -> & H4).
    apply getitem_str_inv in H5 as (d' & [= <-] & H5).
    apply getitem_str_inv in H6 as (du & -> & H6).
    apply getitem_str_inv in H7 as (du' & [= <-] & H7).
    simpl. rewrite H1, H5. simpl. by rewrite H3, H4, H6, H7.
  - destruct r as [text pt ct]. cbn [content input_tokens output_tokens].
    intros (Hc & Hp & Ho).
    apply RequestFacts.getitem_member in Hc as (choices & Hg1 & Hc).
    apply RequestFacts.getitem_first in Hc as (choice & Hg2 & Hc).
    apply RequestFacts.getitem_member in Hc as (message & Hg3 & Hc).
    apply RequestFacts.getitem_member in Hc as (text' & Hg4 & [= ->]).
    apply RequestFacts.getitem_member in Hp as (usage & Hg5 & Hp).
    apply RequestFacts.getitem_member in Hp as (pt' & Hg6 & [= ->]).
    apply RequestFacts.getitem_member in Ho as (usage' & Hg7 & Ho).
    apply RequestFacts.getitem_member in Ho as (ct' & Hg8 & [= ->]).
    unfold completion_of_body.
    rewrite Hg1, Hg2, Hg3, Hg4, Hg5, Hg6.
    rewrite Hg5 in Hg7. injection Hg7 as <-. by rewrite Hg8.
Qed.

Section Transport.
Variable session_post : request → exn + response.
Variable str_value : value → string.
Variable OPENAI_NON_200_RESPONSE : template.

#[local] Abbreviation make_request :=
  (_make_request session_post str_value OPENAI_NON_200_RESPONSE).

(** The outcome of a call, by cases on what the transport answers. *)
Lemma make_request_eq (self : OpenAI) (messages : list value)
    (model : string) (s : state) :
  make_request self messages model s =
  (match session_post (chat_request self messages model) with
   | inl e => inl e
   | inr resp =>
       match json_body resp with
       | inl e => inl e
       | inr data =>
           if negb (status resp =? 200)%Z
           then match format OPENAI_NON_200_RESPONSE []
                        [("status_code", pretty (status resp));
                         ("data", str_value data)] with
                | inr msg => inl (Exception msg)
                | inl e => inl e
                end
           else completion_of_body data
       end
   end,
   State (heap s) (trace s ++ [HttpPost (chat_request self messages model)])).
Proof.
  unfold _make_request, completion_of_body, bind, call, lift, raise, ret.
  simpl.
  destruct (session_post _) as [e|resp]; [done|].
  destruct (json_body resp) as [e|data]; [done|].
  destruct (negb _); [by destruct (format _ _ _)|].
  repeat (match goal with
          | |- context [match getitem ?v ?k with _ => _ end] =>
              destruct (getitem v k); [done|]
          end).
  done.
Qed.

(** What a call raises or returns does not depend on the state. *)
Lemma make_request_outcome (self : OpenAI) (messages : list value)
    (model : string) (s s' : state) :
  (make_request self messages model s).1 =
  (make_request self messages model s').1.
Proof. by rewrite !make_request_eq. Qed.

(** X4: a response is returned only for a status 200 whose decoded body has
    the three paths, and is made of the values found there; nothing is
    returned from any other answer. *)
Theorem make_request_result_wellformed (self : OpenAI)
    (messages : list value) (model : string) (s s' : state)
    (r : CompletionResponse) :
  make_request self messages model s = (inr r, s') →
  ∃ resp data,
    session_post (chat_request self messages model) = inr resp ∧
    status resp = 200%Z ∧
    json_body resp = inr data ∧
    json_path
      [Member "choices"; Element 0; Member "message"; Member "content"]
      data = Some (content r) ∧
    json_path [Member "usage"; Member "prompt_tokens"] data =
      Some (input_tokens r) ∧
    json_path [Member "usage"; Member "completion_tokens"] data =
      Some (output_tokens r).
Proof.
  rewrite make_request_eq. intros [= Hr _].
  destruct (session_post _) as [e|resp]; [done|].
  destruct (json_body resp) as [e|data] eqn:Hbody; [done|].
  destruct (status resp =? 200)%Z eqn:Hst; simpl in Hr.
  - apply Z.eqb_eq in Hst. apply completion_of_body_paths in Hr.
    by exists resp, data.
  - by destruct (format _ _ _).
Qed.

(** X5: a status 200 whose body lacks what the code subscripts raises the
    error of the failing subscript: [KeyError] for an object without
    [choices], [IndexError] for an empty list of choices, and [KeyError]
    for a body without [usage] even when the content is there. *)
Theorem make_request_malformed (self : OpenAI) (messages : list value)
    (model : string) (s : state) (resp : response)
    (d : list (string * value)) :
  session_post (chat_request self messages model) = inr resp →
  status resp = 200%Z →
  json_body resp = inr (VDict d) →
  let posted :=
    State (heap s)
          (trace s ++ [HttpPost (chat_request self messages model)]) in
  (dict_get "choices" d = None →
   make_request self messages model s =
     (inl (KeyError (KStr "choices")), posted)) ∧
  (dict_get "choices" d = Some (VList []) →
   make_request self messages model s =
     (inl (IndexError "list index out of range"), posted)) ∧
  (∀ text,
     json_path
       [Member "choices"; Element 0; Member "message"; Member "content"]
       (VDict d) = Some text →
     dict_get "usage" d = None →
     make_request self messages model s =
       (inl (KeyError (KStr "usage")), posted)).
Proof.
  intros Hpost Hst Hbody posted. subst posted.
  rewrite make_request_eq, Hpost, Hbody, Hst.
  unfold completion_of_body. split_and!.
  - intros Hc. simpl. by rewrite Hc.
  - intros Hc. simpl. by rewrite Hc.
  - intros text Hc Hu.
    apply RequestFacts.getitem_member in Hc as (choices & Hg1 & Hc).
    apply RequestFacts.getitem_first in Hc as (choice & Hg2 & Hc).
    apply RequestFacts.getitem_member in Hc as (message & Hg3 & Hc).
    apply RequestFacts.getitem_member in Hc as (text' & Hg4 & _).
    rewrite Hg1, Hg2, Hg3, Hg4. simpl. by rewrite Hu.
Qed.

End Transport.

Lemma make_request_result_wellformed_witness :
  _make_request Demo.post_ok Demo.str_value Demo.non_200_response
    Demo.client [] "gpt-4o-mini" Demo.s0 =
  (inr {| content := VStr "# Title";
          input_tokens := VInt 10;
          output_tokens := VInt 5 |},
   State (heap Demo.s0)
         (trace Demo.s0 ++
          [HttpPost (chat_request Demo.client [] "gpt-4o-mini")])) ∧
  ∃ resp data,
    Demo.post_ok (chat_request Demo.client [] "gpt-4o-mini") = inr resp ∧
    status resp = 200%Z ∧
    json_body resp = inr data ∧
    json_path
      [Member "choices"; Element 0; Member "message"; Member "content"]
      data = Some (VStr "# Title") ∧
    json_path [Member "usage"; Member "prompt_tokens"] data =
      Some (VInt 10) ∧
    json_path [Member "usage"; Member "completion_tokens"] data =
      Some (VInt 5).
Proof.
  split; [reflexivity|].
  apply (make_request_result_wellformed Demo.post_ok Demo.str_value
           Demo.non_200_response Demo.client [] "gpt-4o-mini" Demo.s0
           (State (heap Demo.s0)
              (trace Demo.s0 ++
               [HttpPost (chat_request Demo.client [] "gpt-4o-mini")]))
           {| content := VStr "# Title";
              input_tokens := VInt 10;
              output_tokens := VInt 5 |}).
  reflexivity.
Defined.

(** A 200 that carries an error object. *)
Lemma make_request_malformed_witness :
  Samples.post_error_body (chat_request Demo.client [] "gpt-4o-mini") =
    inr (Response 200 (inr Samples.error_body)) ∧
  status (Response 200 (inr Samples.error_body)) = 200%Z ∧
  dict_get "choices"
    [("error", VDict [("message", VStr "overloaded")])] = None ∧
  _make_request Samples.post_error_body Demo.str_value
    Demo.non_200_response Demo.client [] "gpt-4o-mini" Demo.s0 =
  (inl (KeyError (KStr "choices")),
   State (heap Demo.s0)
         (trace Demo.s0 ++
          [HttpPost (chat_request Demo.client [] "gpt-4o-mini")])).
Proof.
  split_and!; [reflexivity|reflexivity|reflexivity|].
  destruct (make_request_malformed Samples.post_error_body Demo.str_value
              Demo.non_200_response Demo.client [] "gpt-4o-mini" Demo.s0
              (Response 200 (inr Samples.error_body))
              [("error", VDict [("message", VStr "overloaded")])]
              eq_refl eq_refl eq_refl) as (Hmissing & _ & _).
  apply Hmissing. reflexivity.
Defined.

Example make_request_no_choice :
  (_make_request Samples.post_no_choice Demo.str_value
     Demo.non_200_response Demo.client [] "gpt-4o-mini" Demo.s0).1 =
  inl (IndexError "list index out of range").
Proof. reflexivity. Qed.

Example make_request_no_usage :
  (_make_request Samples.post_no_usage Demo.str_value
     Demo.non_200_response Demo.client [] "gpt-4o-mini" Demo.s0).1 =
  inl (KeyError (KStr "usage")).
Proof. reflexivity. Qed.

End RequestLaws.

(** ** Laws of the entry point *)
Module CompletionLaws.
Import Py Rt Openai Claims Laws StrFacts.

Lemma substring_trans (a b c : string) :
  substring_of a b → substring_of b c → substring_of a c.
Proof.
  intros (p1 & q1 & ->) (p2 & q2 & ->).
  exists (p2 +:+ p1), (q1 +:+ q2). by rewrite !append_assoc.
Qed.

Lemma extends_same_heap (s s' : state) : heap s' = heap s → extends s s'.
Proof. intros Hh l _. by rewrite Hh. Qed.

Lemma extends_trans (s s' s'' : state) :
  extends s s' → extends s' s'' → extends s s''.
Proof.
  intros H1 H2 l Hl. rewrite <- (H1 l Hl). apply H2. by rewrite (H1 l Hl).
Qed.

Lemma extends_alloc (s : state) (d : gmap string value) (t : list event) :
  extends s (State (<[fresh (dom (heap s)) := d]> (heap s)) t).
Proof.
  intros l [x Hx]. simpl. apply lookup_insert_ne. intros Heq.
  by rewrite <- Heq, ValidationFacts.fresh_unallocated in Hx.
Qed.

Lemma or_empty_dict_extends (llm_params : option loc) (s : state) :
  extends s (or_empty_dict llm_params s).2.
Proof.
  rewrite CompletionFacts.or_empty_dict_eq.
  destruct llm_params as [l|]; [|apply extends_alloc].
  destruct (decide _); [apply extends_alloc|by apply extends_same_heap].
Qed.

(** The validation of a new empty dict is accepted. *)
Lemma validate_new_dict (set_iter : gset string → list string) (s : state) :
  ∃ v s3,
    validate_llm_params set_iter (fresh (dom (heap s)))
      (State (<[fresh (dom (heap s)) := ∅]> (heap s)) (trace s)) =
    (inr v, s3) ∧ trace s3 = trace s.
Proof.
  rewrite ValidationFacts.validate_llm_params_eq. simpl.
  rewrite lookup_insert_eq. simpl.
  destruct (decide _) as [_|Hne]; [by do 2 eexists|].
  exfalso. apply Hne, elem_of_equiv_empty_L.
  intros k [Hk _]%elem_of_difference.
  rewrite dom_empty_L in Hk. by apply not_elem_of_empty in Hk.
Qed.

Section World.
Variable set_iter : gset string → list string.
Variable encode_image_to_base64 : string → exn + string.
Variable session_post : request → exn + response.
Variable str_value : value → string.
Variable OPENAI_COMPLETION_ERROR : template.
Variable OPENAI_NON_200_RESPONSE : template.

#[local] Abbreviation prepare_messages :=
  (_prepare_messages encode_image_to_base64).
#[local] Abbreviation validate := (validate_llm_params set_iter).
#[local] Abbreviation make_request :=
  (_make_request session_post str_value OPENAI_NON_200_RESPONSE).
#[local] Abbreviation run_completion :=
  (completion set_iter encode_image_to_base64 session_post str_value
     OPENAI_COMPLETION_ERROR OPENAI_NON_200_RESPONSE).

Lemma prepare_messages_state self image_path maintain_format prior_page s :
  (prepare_messages self image_path maintain_format prior_page s).2 =
  State (heap s) (trace s ++ [EncodeImage image_path]).
Proof.
  unfold _prepare_messages, bind, call, ret. simpl.
  by destruct (encode_image_to_base64 image_path).
Qed.

Lemma validate_extends (params : loc) (s : state) :
  extends s (validate params s).2.
Proof.
  rewrite ValidationFacts.validate_llm_params_eq. cbv zeta.
  destruct (decide _); [apply extends_alloc|by apply extends_same_heap].
Qed.

(** Acceptable parameters pass [llm_params or {}] and the validation. *)
Lemma acceptable_validated (llm_params : option loc) (s s1 : state) :
  acceptable llm_params s → heap s1 = heap s →
  ∃ params s2 v s3,
    or_empty_dict llm_params s1 = (inr params, s2) ∧
    validate params s2 = (inr v, s3) ∧
    trace s3 = trace s1.
Proof.
  intros Hacc Hh. rewrite CompletionFacts.or_empty_dict_eq.
  destruct llm_params as [p|].
  - destruct Hacc as (c & d & Hp & Hd & Hsub).
    rewrite Hh, Hp. simpl. rewrite <- Hh.
    destruct (decide _) as [_|_].
    + destruct (validate_new_dict set_iter s1) as (v & s3 & Hv & Ht).
      by do 4 eexists.
    + exists p, s1.
      rewrite ValidationFacts.validate_llm_params_eq, Hh, Hp, Hd. simpl.
      destruct (decide _) as [_|Hne]; [by do 2 eexists|].
      exfalso. apply Hne, elem_of_equiv_empty_L.
      intros k [Hk Hk']%elem_of_difference. auto.
  - destruct (validate_new_dict set_iter s1) as (v & s3 & Hv & Ht).
    by do 4 eexists.
Qed.

(** With the messages built and the parameters acceptable, the call is
    the request, made after the encoder's call, its failure wrapped. *)
Lemma completion_reaches_request (self : OpenAI) (image_path : string)
    (maintain_format : bool) (prior_page model : string)
    (llm_params : option loc) (messages : list value) (s : state) :
  (prepare_messages self image_path maintain_format prior_page s).1 =
    inr messages →
  acceptable llm_params s →
  ∃ s3,
    trace s3 = trace s ++ [EncodeImage image_path] ∧
    run_completion self image_path maintain_format prior_page model
      llm_params s =
    match make_request self messages model s3 with
    | (inr response, s4) => (inr response, s4)
    | (inl err, s4) =>
        match format OPENAI_COMPLETION_ERROR [str_exn err] [] with
        | inr msg => (inl (Exception msg), s4)
        | inl e => (inl e, s4)
        end
    end.
Proof.
  intros Hm Hacc. rewrite CompletionFacts.completion_eq.
  pose proof (prepare_messages_state self image_path maintain_format
                prior_page s) as H1.
  destruct (_prepare_messages _ _ _ _ _ _) as [r1 s1].
  simpl in Hm, H1. subst r1 s1.
  destruct (acceptable_validated llm_params s
              (State (heap s) (trace s ++ [EncodeImage image_path]))
              Hacc eq_refl) as (p & s2 & v & s3 & -> & -> & Ht).
  by exists s3.
Qed.

(** What the request returns, the call returns. *)
Lemma completion_returns (self : OpenAI) (image_path : string)
    (maintain_format : bool) (prior_page model : string)
    (llm_params : option loc) (messages : list value) (s : state)
    (r : CompletionResponse) :
  (prepare_messages self image_path maintain_format prior_page s).1 =
    inr messages →
  acceptable llm_params s →
  (make_request self messages model s).1 = inr r →
  (run_completion self image_path maintain_format prior_page model
     llm_params s).1 = inr r.
Proof.
  intros Hm Hacc Hr.
  destruct (completion_reaches_request self image_path maintain_format
              prior_page model llm_params messages s Hm Hacc)
    as (s3 & _ & ->).
  rewrite (RequestLaws.make_request_outcome _ _ _ _ _ _ s s3) in Hr.
  destruct (_make_request _ _ _ _ _ _ _) as [[err|r'] s4]; simpl in Hr;
    [done|]. by injection Hr as ->.
Qed.

(** What the request raises, the call raises wrapped. *)
Lemma completion_wraps (self : OpenAI) (image_path : string)
    (maintain_format : bool) (prior_page model : string)
    (llm_params : option loc) (messages : list value) (s : state)
    (err : exn) :
  fields_ok 1 [] OPENAI_COMPLETION_ERROR = true →
  PosField 0 ∈ OPENAI_COMPLETION_ERROR →
  (prepare_messages self image_path maintain_format prior_page s).1 =
    inr messages →
  acceptable llm_params s →
  (make_request self messages model s).1 = inl err →
  ∃ msg,
    (run_completion self image_path maintain_format prior_page model
       llm_params s).1 = inl (Exception msg) ∧
    substring_of (str_exn err) msg.
Proof.
  intros Hok Hfield Hm Hacc Hr.
  destruct (completion_reaches_request self image_path maintain_format
              prior_page model llm_params messages s Hm Hacc)
    as (s3 & _ & ->).
  rewrite (RequestLaws.make_request_outcome _ _ _ _ _ _ s s3) in Hr.
  destruct (_make_request _ _ _ _ _ _ _) as [[err'|r'] s4]; simpl in Hr;
    [|done]. injection Hr as ->.
  destruct (format_total OPENAI_COMPLETION_ERROR [str_exn err] [] Hok)
    as [msg Hmsg].
  rewrite Hmsg. exists msg. split; [done|].
  eapply format_embeds_pos; [exact Hfield| |exact Hmsg]. reflexivity.
Qed.

(** X6: with a readable image and acceptable parameters (none, or keys of
    the defaults only), a call makes exactly two calls to its
    collaborators: the encoder, then one request that carries the
    messages built and the model given; there is no second attempt. *)
Theorem completion_posts_once (self : OpenAI) (image_path : string)
    (maintain_format : bool) (prior_page model : string)
    (llm_params : option loc) (messages : list value) (s : state) :
  (prepare_messages self image_path maintain_format prior_page s).1 =
    inr messages →
  acceptable llm_params s →
  trace (run_completion self image_path maintain_format prior_page model
           llm_params s).2 =
  trace s ++ [EncodeImage image_path;
              HttpPost (chat_request self messages model)].
Proof.
  intros Hm Hacc.
  destruct (completion_reaches_request self image_path maintain_format
              prior_page model llm_params messages s Hm Hacc)
    as (s3 & Ht & ->).
  pose proof (RequestFacts.make_request_state session_post str_value
                OPENAI_NON_200_RESPONSE self messages model s3) as H4.
  destruct (_make_request _ _ _ _ _ _ _) as [[err|r] s4]; simpl in H4;
    [destruct (format _ _ _)|]; simpl; rewrite H4; simpl; rewrite Ht;
    by rewrite <- app_assoc.
Qed.

(** X7: end to end: readable image, acceptable parameters, status 200 and a
    body with the three paths give the response made of the three
    values. *)
Theorem completion_success (self : OpenAI) (image_path : string)
    (maintain_format : bool) (prior_page model : string)
    (llm_params : option loc) (messages : list value) (s : state)
    (resp : response) (data text prompt_tokens completion_tokens : value) :
  (prepare_messages self image_path maintain_format prior_page s).1 =
    inr messages →
  acceptable llm_params s →
  session_post (chat_request self messages model) = inr resp →
  status resp = 200%Z →
  json_body resp = inr data →
  json_path [Member "choices"; Element 0; Member "message"; Member "content"]
    data = Some text →
  json_path [Member "usage"; Member "prompt_tokens"] data =
    Some prompt_tokens →
  json_path [Member "usage"; Member "completion_tokens"] data =
    Some completion_tokens →
  (run_completion self image_path maintain_format prior_page model
     llm_params s).1 =
  inr {| content := text;
         input_tokens := prompt_tokens;
         output_tokens := completion_tokens |}.
Proof.
  intros Hm Hacc Hpost Hst Hbody Hc Hp Ho.
  apply (completion_returns _ _ _ _ _ _ messages); [done|done|].
  rewrite RequestLaws.make_request_eq, Hpost, Hbody, Hst. simpl.
  by apply RequestLaws.completion_of_body_paths.
Qed.

(** X8: a call changes no dict object that exists when it is made: the
    caller's mapping and the class defaults are as they were, whatever
    the outcome. *)
Theorem completion_frame (self : OpenAI) (image_path : string)
    (maintain_format : bool) (prior_page model : string)
    (llm_params : option loc) (s : state) (l : loc) :
  is_Some (heap s !! l) →
  heap (run_completion self image_path maintain_format prior_page model
          llm_params s).2 !! l = heap s !! l.
Proof.
  revert l. change (extends s (run_completion self image_path
    maintain_format prior_page model llm_params s).2).
  rewrite CompletionFacts.completion_eq.
  pose proof (prepare_messages_state self image_path maintain_format
                prior_page s) as H1.
  destruct (_prepare_messages _ _ _ _ _ _) as [r1 s1]. simpl in H1.
  assert (extends s s1) as E1 by (apply extends_same_heap; by subst s1).
  clear H1. destruct r1 as [e|messages]; [done|].
  pose proof (or_empty_dict_extends llm_params s1) as E2.
  destruct (or_empty_dict _ _) as [r2 s2]. simpl in E2.
  pose proof (extends_trans _ _ _ E1 E2) as E12.
  destruct r2 as [e|params]; [done|].
  pose proof (validate_extends params s2) as E3.
  destruct (validate_llm_params _ _ _) as [r3 s3]. simpl in E3.
  pose proof (extends_trans _ _ _ E12 E3) as E13.
  destruct r3 as [e|v]; [done|].
  pose proof (RequestFacts.make_request_state session_post str_value
                OPENAI_NON_200_RESPONSE self messages model s3) as H4.
  destruct (_make_request _ _ _ _ _ _ _) as [r4 s4]. simpl in H4.
  assert (extends s s4) as E14.
  { apply (extends_trans _ _ _ E13), extends_same_heap. by subst s4. }
  destruct r4 as [err|r]; [|done]. by destruct (format _ _ _).
Qed.

(** X9: a status other than 200 reaches the caller of [completion] as an
    [Exception] whose text shows the status code. *)
Theorem completion_non_200 (self : OpenAI) (image_path : string)
    (maintain_format : bool) (prior_page model : string)
    (llm_params : option loc) (messages : list value) (s : state)
    (resp : response) (data : value) :
  fields_ok 1 [] OPENAI_COMPLETION_ERROR = true →
  PosField 0 ∈ OPENAI_COMPLETION_ERROR →
  fields_ok 0 ["status_code"; "data"] OPENAI_NON_200_RESPONSE = true →
  NamedField "status_code" ∈ OPENAI_NON_200_RESPONSE →
  (prepare_messages self image_path maintain_format prior_page s).1 =
    inr messages →
  acceptable llm_params s →
  session_post (chat_request self messages model) = inr resp →
  status resp ≠ 200%Z →
  json_body resp = inr data →
  ∃ msg,
    (run_completion self image_path maintain_format prior_page model
       llm_params s).1 = inl (Exception msg) ∧
    substring_of (pretty (status resp)) msg.
Proof.
  intros Hok Hfield Hok' Hfield' Hm Hacc Hpost Hst Hbody.
  destruct (format_total OPENAI_NON_200_RESPONSE []
              [("status_code", pretty (status resp));
               ("data", str_value data)] Hok') as [inner Hinner].
  destruct (completion_wraps self image_path maintain_format prior_page
              model llm_params messages s (Exception inner) Hok Hfield Hm
              Hacc) as (msg & Hmsg & Hsub).
  { rewrite RequestLaws.make_request_eq, Hpost, Hbody. simpl.
    apply Z.eqb_neq in Hst. rewrite Hst. simpl. by rewrite Hinner. }
  exists msg. split; [done|].
  apply (substring_trans _ inner); [|done].
  eapply format_embeds_named; [exact Hfield'| |exact Hinner]. reflexivity.
Qed.

(** X10: a status 200 whose body has no [choices] reaches the caller of
    [completion] as an [Exception] whose text shows the missing key
    between quotes; no response is returned. *)
Theorem completion_malformed (self : OpenAI) (image_path : string)
    (maintain_format : bool) (prior_page model : string)
    (llm_params : option loc) (messages : list value) (s : state)
    (resp : response) (d : list (string * value)) :
  fields_ok 1 [] OPENAI_COMPLETION_ERROR = true →
  PosField 0 ∈ OPENAI_COMPLETION_ERROR →
  (prepare_messages self image_path maintain_format prior_page s).1 =
    inr messages →
  acceptable llm_params s →
  session_post (chat_request self messages model) = inr resp →
  status resp = 200%Z →
  json_body resp = inr (VDict d) →
  dict_get "choices" d = None →
  ∃ msg,
    (run_completion self image_path maintain_format prior_page model
       llm_params s).1 = inl (Exception msg) ∧
    substring_of (squote +:+ "choices" +:+ squote) msg.
Proof.
  intros Hok Hfield Hm Hacc Hpost Hst Hbody Hd.
  apply (completion_wraps self image_path maintain_format prior_page
           model llm_params messages s (KeyError (KStr "choices")));
    [done..|].
  rewrite RequestLaws.make_request_eq, Hpost, Hbody, Hst.
  unfold completion_of_body. simpl. by rewrite Hd.
Qed.

(** X11: the credential a client was built with goes, behind [Bearer], in the
    [Authorization] header of the request to the chat-completions URL,
    and in no other call the entry point makes. *)
Theorem completion_authorization (environ : gmap string string)
    (explicit : option string) (self : OpenAI) (image_path : string)
    (maintain_format : bool) (prior_page model : string)
    (llm_params : option loc) (s : state) :
  __init__ environ explicit = inr self →
  ∃ k later,
    get_api_key environ explicit = inr k ∧
    trace (run_completion self image_path maintain_format prior_page model
             llm_params s).2 =
      trace s ++ EncodeImage image_path :: later ∧
    (later = [] ∨
     ∃ req, later = [HttpPost req] ∧
       url req = "https://api.openai.com/v1/chat/completions" ∧
       headers req = [("Authorization", "Bearer " +:+ k);
                      ("Content-Type", "application/json")]).
Proof.
  intros Hinit. rewrite CredentialFacts.init_api_key in Hinit.
  destruct (get_api_key environ explicit) as [e|k]; [done|].
  injection Hinit as <-.
  destruct (CompletionFacts.completion_trace set_iter
              encode_image_to_base64 session_post str_value
              OPENAI_COMPLETION_ERROR OPENAI_NON_200_RESPONSE
              {| api_key := k |} image_path maintain_format prior_page
              model llm_params s) as (later & Ht & Hl).
  exists k, later. split_and!; [done|done|].
  destruct Hl as [->|[messages ->]]; [by left|]. right. by eexists.
Qed.

End World.

#[local] Abbreviation sample_completion post :=
  (completion Demo.iter_up Demo.encode_one_file post Demo.str_value
     Demo.completion_error Demo.non_200_response Demo.client).

#[local] Abbreviation sample_messages :=
  [system_message; image_message "iVBORw0KGgo="].

Lemma sample_acceptable : acceptable (Some 2%positive) Demo.s1.
Proof.
  exists Demo.good_params, DEFAULT_LLM_PARAMS.
  split_and!; [reflexivity|reflexivity|compute_done].
Qed.

Lemma sample_field : PosField 0 ∈ Demo.completion_error.
Proof. apply elem_of_cons. right. apply elem_of_cons. by left. Qed.

Lemma sample_status_field : NamedField "status_code" ∈ Demo.non_200_response.
Proof. apply elem_of_cons. right. apply elem_of_cons. by left. Qed.

Lemma completion_posts_once_witness :
  (_prepare_messages Demo.encode_one_file Demo.client "page.png" false ""
     Demo.s1).1 = inr sample_messages ∧
  acceptable (Some 2%positive) Demo.s1 ∧
  trace (sample_completion Demo.post_rate_limited "page.png" false ""
           "gpt-4o-mini" (Some 2%positive) Demo.s1).2 =
  trace Demo.s1 ++
  [EncodeImage "page.png";
   HttpPost (chat_request Demo.client sample_messages "gpt-4o-mini")].
Proof.
  split_and!; [reflexivity|exact sample_acceptable|].
  apply (completion_posts_once Demo.iter_up Demo.encode_one_file
           Demo.post_rate_limited Demo.str_value Demo.completion_error
           Demo.non_200_response Demo.client "page.png" false ""
           "gpt-4o-mini" (Some 2%positive) sample_messages Demo.s1);
    [reflexivity|exact sample_acceptable].
Defined.

Lemma completion_success_witness :
  (_prepare_messages Demo.encode_one_file Demo.client "page.png" false ""
     Demo.s0).1 = inr sample_messages ∧
  acceptable None Demo.s0 ∧
  Demo.post_ok (chat_request Demo.client sample_messages "gpt-4o-mini") =
    inr (Response 200 (inr Demo.title_body)) ∧
  (sample_completion Demo.post_ok "page.png" false "" "gpt-4o-mini" None
     Demo.s0).1 =
  inr {| content := VStr "# Title";
         input_tokens := VInt 10;
         output_tokens := VInt 5 |}.
Proof.
  split_and!; [reflexivity|exact I|reflexivity|].
  apply (completion_success Demo.iter_up Demo.encode_one_file Demo.post_ok
           Demo.str_value Demo.completion_error Demo.non_200_response
           Demo.client "page.png" false "" "gpt-4o-mini" None
           sample_messages Demo.s0 (Response 200 (inr Demo.title_body))
           Demo.title_body);
    [reflexivity|exact I|reflexivity..].
Defined.

(** The caller's mapping after a call that was rejected by the remote
    side. *)
Lemma completion_frame_witness :
  is_Some (heap Demo.s1 !! 2%positive) ∧
  heap (sample_completion Demo.post_rate_limited "page.png" false ""
          "gpt-4o-mini" (Some 2%positive) Demo.s1).2 !! 2%positive =
  heap Demo.s1 !! 2%positive.
Proof.
  assert (is_Some (heap Demo.s1 !! 2%positive)) as Hl
    by (eexists; reflexivity).
  split; [exact Hl|].
  exact (completion_frame Demo.iter_up Demo.encode_one_file
           Demo.post_rate_limited Demo.str_value Demo.completion_error
           Demo.non_200_response Demo.client "page.png" false ""
           "gpt-4o-mini" (Some 2%positive) Demo.s1 2%positive Hl).
Defined.

Lemma completion_non_200_witness :
  fields_ok 1 [] Demo.completion_error = true ∧
  PosField 0 ∈ Demo.completion_error ∧
  fields_ok 0 ["status_code"; "data"] Demo.non_200_response = true ∧
  NamedField "status_code" ∈ Demo.non_200_response ∧
  (_prepare_messages Demo.encode_one_file Demo.client "page.png" false ""
     Demo.s0).1 = inr sample_messages ∧
  acceptable None Demo.s0 ∧
  Demo.post_rate_limited
    (chat_request Demo.client sample_messages "gpt-4o-mini") =
    inr (Response 429 (inr (VStr "Rate limit reached"))) ∧
  status (Response 429 (inr (VStr "Rate limit reached"))) ≠ 200%Z ∧
  ∃ msg,
    (sample_completion Demo.post_rate_limited "page.png" false ""
       "gpt-4o-mini" None Demo.s0).1 = inl (Exception msg) ∧
    substring_of (pretty 429%Z) msg.
Proof.
  split_and!;
    [reflexivity|exact sample_field|reflexivity|exact sample_status_field
    |reflexivity|exact I|reflexivity|discriminate|].
  apply (completion_non_200 Demo.iter_up Demo.encode_one_file
           Demo.post_rate_limited Demo.str_value Demo.completion_error
           Demo.non_200_response Demo.client "page.png" false ""
           "gpt-4o-mini" None sample_messages Demo.s0
           (Response 429 (inr (VStr "Rate limit reached")))
           (VStr "Rate limit reached"));
    [reflexivity|exact sample_field|reflexivity|exact sample_status_field
    |reflexivity|exact I|reflexivity|discriminate|reflexivity].
Defined.

Lemma completion_malformed_witness :
  fields_ok 1 [] Demo.completion_error = true ∧
  PosField 0 ∈ Demo.completion_error ∧
  (_prepare_messages Demo.encode_one_file Demo.client "page.png" false ""
     Demo.s0).1 = inr sample_messages ∧
  acceptable None Demo.s0 ∧
  Samples.post_error_body
    (chat_request Demo.client sample_messages "gpt-4o-mini") =
    inr (Response 200 (inr Samples.error_body)) ∧
  dict_get "choices"
    [("error", VDict [("message", VStr "overloaded")])] = None ∧
  ∃ msg,
    (sample_completion Samples.post_error_body "page.png" false ""
       "gpt-4o-mini" None Demo.s0).1 = inl (Exception msg) ∧
    substring_of (squote +:+ "choices" +:+ squote) msg.
Proof.
  split_and!;
    [reflexivity|exact sample_field|reflexivity|exact I|reflexivity
    |reflexivity|].
  apply (completion_malformed Demo.iter_up Demo.encode_one_file
           Samples.post_error_body Demo.str_value Demo.completion_error
           Demo.non_200_response Demo.client "page.png" false ""
           "gpt-4o-mini" None sample_messages Demo.s0
           (Response 200 (inr Samples.error_body))
           [("error", VDict [("message", VStr "overloaded")])]);
    [reflexivity|exact sample_field|reflexivity|exact I|reflexivity..].
Defined.

Example completion_malformed_text :
  (sample_completion Samples.post_error_body "page.png" false ""
     "gpt-4o-mini" None Demo.s0).1 =
  inl (Exception
         ("Error in Completion Response. Error: " +:+
          squote +:+ "choices" +:+ squote)).
Proof. reflexivity. Qed.

(** A client built from the environment. *)
Lemma completion_authorization_witness :
  __init__ Samples.environ_with_key None = inr {| api_key := "envkey" |} ∧
  ∃ k later,
    get_api_key Samples.environ_with_key None = inr k ∧
    trace (completion Demo.iter_up Demo.encode_one_file Demo.post_ok
             Demo.str_value Demo.completion_error Demo.non_200_response
             {| api_key := "envkey" |} "page.png" false "" "gpt-4o-mini"
             None Demo.s0).2 =
      trace Demo.s0 ++ EncodeImage "page.png" :: later ∧
    (later = [] ∨
     ∃ req, later = [HttpPost req] ∧
       url req = "https://api.openai.com/v1/chat/completions" ∧
       headers req = [("Authorization", "Bearer " +:+ k);
                      ("Content-Type", "application/json")]).
Proof.
  split; [reflexivity|].
  apply (completion_authorization Demo.iter_up Demo.encode_one_file
           Demo.post_ok Demo.str_value Demo.completion_error
           Demo.non_200_response Samples.environ_with_key None).
  reflexivity.
Defined.

Example completion_bearer :
  trace (completion Demo.iter_up Demo.encode_one_file Demo.post_ok
           Demo.str_value Demo.completion_error Demo.non_200_response
           {| api_key := "envkey" |} "page.png" false "" "gpt-4o-mini"
           None Demo.s0).2 =
  [EncodeImage "page.png";
   HttpPost
     {| url := "https://api.openai.com/v1/chat/completions";
        json := VDict [("messages", VList sample_messages);
                       ("model", VStr "gpt-4o-mini")];
        headers := [("Authorization", "Bearer envkey");
                    ("Content-Type", "application/json")] |}].
Proof. reflexivity. Qed.

End CompletionLaws.

(** ** Edge cases of the parameters *)
Module ParameterEdges.
Import Py Rt Openai Claims Laws StrFacts.

Section World.
Variable set_iter : gset string → list string.
Variable encode_image_to_base64 : string → exn + string.
Variable session_post : request → exn + response.
Variable str_value : value → string.
Variable OPENAI_COMPLETION_ERROR : template.
Variable OPENAI_NON_200_RESPONSE : template.

(** X12: with exactly one offending key the message is fixed, whatever the
    iteration order of sets: the prefix followed by that key. *)
Theorem validate_llm_params_single_offender (s : state) (params : loc)
    (candidate defaults : gmap string value) (bad : string) :
  admissible_iteration set_iter →
  heap s !! DEFAULT_LLM_PARAMS_ref = Some defaults →
  heap s !! params = Some candidate →
  dom candidate ∖ dom defaults = {[ bad ]} →
  validate_llm_params set_iter params s =
  (inl (InvalidLLMParamsException ("Invalid LLM parameters: " +:+ bad)), s).
Proof.
  intros Hit Hd Hp Hone.
  rewrite ValidationFacts.validate_llm_params_eq, Hd, Hp. simpl.
  rewrite Hone.
  destruct (decide _) as [He|_].
  { exfalso. apply (not_elem_of_empty (C := gset string) bad).
    rewrite <- He. by apply elem_of_singleton. }
  pose proof (Hit {[ bad ]}) as Hperm.
  rewrite elements_singleton in Hperm.
  apply Permutation_singleton_r in Hperm. by rewrite Hperm.
Qed.

(** X13: an empty mapping is falsy: passing it is passing no parameters at
    all, in outcome and in final state. *)
Theorem completion_empty_params (self : OpenAI) (image_path : string)
    (maintain_format : bool) (prior_page model : string) (params : loc)
    (s : state) :
  heap s !! params = Some ∅ →
  completion set_iter encode_image_to_base64 session_post str_value
    OPENAI_COMPLETION_ERROR OPENAI_NON_200_RESPONSE self image_path
    maintain_format prior_page model (Some params) s =
  completion set_iter encode_image_to_base64 session_post str_value
    OPENAI_COMPLETION_ERROR OPENAI_NON_200_RESPONSE self image_path
    maintain_format prior_page model None s.
Proof.
  intros Hp. rewrite !CompletionFacts.completion_eq.
  pose proof (CompletionLaws.prepare_messages_state encode_image_to_base64
                self image_path maintain_format prior_page s) as H1.
  destruct (_prepare_messages _ _ _ _ _ _) as [[e|messages] s1]; [done|].
  simpl in H1. subst s1.
  rewrite !CompletionFacts.or_empty_dict_eq. simpl. rewrite Hp. simpl.
  rewrite dom_empty_L. by destruct (decide _).
Qed.

End World.

Lemma validate_llm_params_single_offender_witness :
  admissible_iteration Demo.iter_down ∧
  heap Samples.s3 !! DEFAULT_LLM_PARAMS_ref = Some DEFAULT_LLM_PARAMS ∧
  heap Samples.s3 !! 2%positive = Some Samples.one_unknown_params ∧
  dom Samples.one_unknown_params ∖ dom DEFAULT_LLM_PARAMS = {[ "foo" ]} ∧
  validate_llm_params Demo.iter_down 2%positive Samples.s3 =
  (inl (InvalidLLMParamsException ("Invalid LLM parameters: " +:+ "foo")),
   Samples.s3).
Proof.
  assert (dom Samples.one_unknown_params ∖ dom DEFAULT_LLM_PARAMS =
          ({[ "foo" ]} : gset string)) as Hone by compute_done.
  split_and!;
    [exact ValidationFacts.iter_down_admissible|reflexivity|reflexivity
    |exact Hone|].
  apply (validate_llm_params_single_offender Demo.iter_down Samples.s3
           2%positive Samples.one_unknown_params DEFAULT_LLM_PARAMS "foo");
    [exact ValidationFacts.iter_down_admissible|reflexivity|reflexivity
    |exact Hone].
Defined.

Lemma completion_empty_params_witness :
  heap Samples.s3 !! 3%positive = Some ∅ ∧
  completion Demo.iter_up Demo.encode_one_file Demo.post_ok Demo.str_value
    Demo.completion_error Demo.non_200_response Demo.client "page.png"
    true "Hello" "gpt-4o-mini" (Some 3%positive) Samples.s3 =
  completion Demo.iter_up Demo.encode_one_file Demo.post_ok Demo.str_value
    Demo.completion_error Demo.non_200_response Demo.client "page.png"
    true "Hello" "gpt-4o-mini" None Samples.s3.
Proof.
  split; [reflexivity|].
  apply (completion_empty_params Demo.iter_up Demo.encode_one_file
           Demo.post_ok Demo.str_value Demo.completion_error
           Demo.non_200_response Demo.client "page.png" true "Hello"
           "gpt-4o-mini" 3%positive Samples.s3).
  reflexivity.
Defined.

End ParameterEdges.
